(** * files-to-prompt.cpp: the file-selection engine and the streaming serializer

    A shallow embedding of [main.cpp]: the ignore-rule matcher
    ([should_ignore], [read_gitignore]), the filter chain
    ([should_ignore_file], [process_directory]), the serializer
    ([print_path], [process_file]) and the driver loop of [main].

    C++ [std::string] values are Rocq [string]s (sequences of 8-bit
    characters); [std::vector<std::string>] is [list string].  Library
    functions the program calls but does not define ([fnmatch],
    [std::filesystem::path], [getline], the file system itself) are given
    executable models of their documented behaviour in the sections that
    introduce them.

    What is outside the model: option parsing ([getopt]), exceptions thrown
    by [std::filesystem] (a directory that cannot be read ends the process),
    and changes made to the file system while the program runs. *)

From Stdlib Require Import String Ascii List Bool Arith ZArith Lia.
From Stdlib Require Import DecimalString.
Import ListNotations.

Local Open Scope list_scope.
Local Open Scope string_scope.

#[local] Arguments Ascii.eqb : simpl never.

(** ** C strings *)

Module CStr.

Definition NUL : ascii := "000"%char.

(** [s.c_str()] as a C function sees it: the characters before the first
    NUL character. *)
Fixpoint c_str (s : string) : string :=
  match s with
  | EmptyString => EmptyString
  | String c s' => if (c =? NUL)%char then EmptyString else String c (c_str s')
  end.

(** [mem c s]: the character [c] occurs in [s]. *)
Fixpoint mem (c : ascii) (s : string) : bool :=
  match s with
  | EmptyString => false
  | String d s' => (c =? d)%char || mem c s'
  end.

(** [strcspn(s, reject)] on an array holding [s] followed by NUL: the
    prefix of [s] before the first character that is in [reject] or is
    NUL.  [cut reject s] is the string left after
    [s[strcspn(s, reject)] = 0]. *)
Fixpoint cut (reject : string) (s : string) : string :=
  match s with
  | EmptyString => EmptyString
  | String c s' =>
      if (c =? NUL)%char || mem c reject then EmptyString
      else String c (cut reject s')
  end.

(** [s[0] == c]; the character after the end of a string is NUL. *)
Definition first_char_is (c : ascii) (s : string) : bool :=
  match s with
  | String d _ => (d =? c)%char
  | EmptyString => (NUL =? c)%char
  end.

(** [s] without its first character. *)
Definition tail (s : string) : string :=
  match s with
  | String _ s' => s'
  | EmptyString => EmptyString
  end.

(** [s] ends with [suffix]. *)
Definition ends_with (s suffix : string) : Prop :=
  exists front, s = front ++ suffix.

End CStr.
Import CStr.

(** ** Shell patterns: [fnmatch(pattern, string, 0)]

    Modelled from POSIX.1 (Shell Command Language, Pattern Matching
    Notation): [fnmatch] belongs to the C library, not to this repository.
    With [flags = 0] a slash and a leading period are ordinary characters
    and a backslash quotes the next character.  Bracket expressions have
    single characters, ranges and the twelve character classes of the C
    locale; equivalence classes and collating symbols, which need the
    locale database, are not interpreted. *)

Module Glob.

Inductive item : Type :=
| Single (c : ascii)
| Range (lo hi : ascii)
| Class (name : string).

Inductive token : Type :=
| Lit (c : ascii)               (* an ordinary or quoted character *)
| AnyChar                       (* ? *)
| Star                          (* * *)
| Bracket (negated : bool) (items : list item)
| Lose.                         (* a trailing backslash: matches nothing *)

Definition between (lo hi : nat) (c : ascii) : bool :=
  let n := nat_of_ascii c in (lo <=? n)%nat && (n <=? hi)%nat.

Definition is_upper := between 65 90.
Definition is_lower := between 97 122.
Definition is_digit := between 48 57.
Definition is_alpha c := is_upper c || is_lower c.
Definition is_alnum c := is_alpha c || is_digit c.
Definition is_blank c := (nat_of_ascii c =? 32)%nat || (nat_of_ascii c =? 9)%nat.
Definition is_space c := (nat_of_ascii c =? 32)%nat || between 9 13 c.
Definition is_cntrl c := between 0 31 c || (nat_of_ascii c =? 127)%nat.
Definition is_graph := between 33 126.
Definition is_print := between 32 126.
Definition is_punct c := is_graph c && negb (is_alnum c).
Definition is_xdigit c := is_digit c || between 65 70 c || between 97 102 c.

(** The classes of the C locale; an unknown name has no members. *)
Definition in_class (name : string) (c : ascii) : bool :=
  if name =? "alnum" then is_alnum c
  else if name =? "alpha" then is_alpha c
  else if name =? "blank" then is_blank c
  else if name =? "cntrl" then is_cntrl c
  else if name =? "digit" then is_digit c
  else if name =? "graph" then is_graph c
  else if name =? "lower" then is_lower c
  else if name =? "print" then is_print c
  else if name =? "punct" then is_punct c
  else if name =? "space" then is_space c
  else if name =? "upper" then is_upper c
  else if name =? "xdigit" then is_xdigit c
  else false.

Definition item_matches (c : ascii) (i : item) : bool :=
  match i with
  | Single d => (c =? d)%char
  | Range lo hi => between (nat_of_ascii lo) (nat_of_ascii hi) c
  | Class name => in_class name c
  end.

(** The name of a class, read after the two characters that open it:
    lower-case letters up to the colon and bracket that close it. *)
Fixpoint class_name (p : string) : option (string * string) :=
  match p with
  | EmptyString => None
  | String c p' =>
      if (c =? ":")%char && first_char_is "]" p'
      then Some (EmptyString, tail p')
      else if is_lower c then
        match class_name p' with
        | Some (name, rest) => Some (String c name, rest)
        | None => None
        end
      else None
  end.

(** One character of a bracket expression, a backslash quoting the
    next. *)
Definition bracket_char (p : string) : option (ascii * string) :=
  match p with
  | EmptyString => None
  | String c rest =>
      if (c =? "\")%char then
        match rest with
        | EmptyString => None
        | String d rest' => Some (d, rest')
        end
      else Some (c, rest)
  end.

(** The items of a bracket expression up to its closing bracket, and the
    pattern after it; [None] when the expression is not terminated.
    [first] holds at the first item, where a closing bracket stands for
    itself. *)
Fixpoint bracket_items (fuel : nat) (first : bool) (p : string)
  : option (list item * string) :=
  match fuel with
  | O => None
  | S fuel' =>
      let more (i : item) (rest : string) :=
        match bracket_items fuel' false rest with
        | Some (items, rest') => Some (i :: items, rest')
        | None => None
        end in
      match p with
      | EmptyString => None
      | String c p' =>
          if (c =? "]")%char then
            if first then more (Single c) p' else Some ([], p')
          else if (c =? "[")%char && first_char_is ":" p' then
            match class_name (tail p') with
            | Some (name, rest) => more (Class name) rest
            | None => more (Single c) p'
            end
          else
            match bracket_char p with
            | None => None
            | Some (lo, rest) =>
                if first_char_is "-" rest
                   && negb (first_char_is "]" (tail rest))
                   && negb (tail rest =? EmptyString)
                then
                  match bracket_char (tail rest) with
                  | Some (hi, rest') => more (Range lo hi) rest'
                  | None => None
                  end
                else more (Single lo) rest
            end
      end
  end.

(** A bracket expression, read after its opening bracket. *)
Definition bracket (p : string) : option (bool * list item * string) :=
  let negated := first_char_is "!" p || first_char_is "^" p in
  let body := if negated then tail p else p in
  match bracket_items (String.length body) true body with
  | Some (items, rest) => Some (negated, items, rest)
  | None => None
  end.

(** The pattern as tokens.  An opening bracket that starts no bracket
    expression stands for itself. *)
Fixpoint tokens (fuel : nat) (p : string) : list token :=
  match fuel with
  | O => []
  | S fuel' =>
      match p with
      | EmptyString => []
      | String c rest =>
          if (c =? "?")%char then AnyChar :: tokens fuel' rest
          else if (c =? "*")%char then Star :: tokens fuel' rest
          else if (c =? "\")%char then
            match rest with
            | EmptyString => [Lose]
            | String d rest' => Lit d :: tokens fuel' rest'
            end
          else if (c =? "[")%char then
            match bracket rest with
            | Some (negated, items, rest') =>
                Bracket negated items :: tokens fuel' rest'
            | None => Lit c :: tokens fuel' rest
            end
          else Lit c :: tokens fuel' rest
      end
  end.

Definition token_matches (t : token) (c : ascii) : bool :=
  match t with
  | Lit d => (c =? d)%char
  | AnyChar => true
  | Bracket negated items => xorb negated (existsb (item_matches c) items)
  | Star | Lose => false
  end.

(** [matches ts s]: the whole of [s] matches the tokens [ts]. *)
Fixpoint matches (ts : list token) (s : string) : bool :=
  match ts with
  | [] => match s with EmptyString => true | _ => false end
  | Star :: ts' =>
      (fix star (s : string) : bool :=
         matches ts' s ||
         match s with
         | EmptyString => false
         | String _ s' => star s'
         end) s
  | t :: ts' =>
      match s with
      | EmptyString => false
      | String c s' => token_matches t c && matches ts' s'
      end
  end.

(** [fnmatch pattern string] is [true] exactly when the C call
    [fnmatch(pattern.c_str(), string.c_str(), 0)] returns 0. *)
Definition fnmatch (pattern string : string) : bool :=
  let p := c_str pattern in
  matches (tokens (String.length p) p) (c_str string).

End Glob.
Import Glob.

(** ** Paths: [std::filesystem::path] on a POSIX system

    Modelled from the C++17 standard ([fs.path.decompose]): the class
    [std::filesystem::path] belongs to the C++ library. *)

Module Path.

Definition SLASH : ascii := "/"%char.

(** [has_slash p]: a directory separator occurs in [p]. *)
Definition has_slash (p : string) : bool := mem SLASH p.

Fixpoint all_slashes (p : string) : bool :=
  match p with
  | EmptyString => true
  | String c p' => (c =? SLASH)%char && all_slashes p'
  end.

(** [fs::path(p).filename()]: the characters after the last
    separator. *)
Fixpoint filename (p : string) : string :=
  match p with
  | EmptyString => EmptyString
  | String _ p' => if has_slash p then filename p' else p
  end.

(** [p] without its filename: up to and including the last separator. *)
Fixpoint directory_part (p : string) : string :=
  match p with
  | EmptyString => EmptyString
  | String c p' => if has_slash p then String c (directory_part p') else EmptyString
  end.

Fixpoint strip_slashes (p : string) : string :=
  match p with
  | EmptyString => EmptyString
  | String c p' => if all_slashes p then EmptyString else String c (strip_slashes p')
  end.

(** [fs::path(p).parent_path().string()]: [p] itself when it has no
    relative part; otherwise [p] without its last component and the
    separators before it, a root directory staying as ["/"]. *)
Definition parent_path (p : string) : string :=
  if all_slashes p then p
  else
    let dir := directory_part p in
    match strip_slashes dir with
    | EmptyString =>
        match dir with
        | EmptyString => EmptyString
        | String _ _ => "/"
        end
    | parent => parent
    end.

End Path.
Import Path.

(** ** The file system and the run's state *)

(** An element of [fs::recursive_directory_iterator]: [entry.path()] and
    [fs::is_directory(entry.status())]. *)
Record directory_entry : Type := {
  entry_path : string;
  entry_is_directory : bool
}.

(** What the run asks of the file system.  The file system does not change
    during a run.  [fopen_r p] is the whole content of the file when
    [fopen(p, "r")] succeeds; [fopen_w p] tells whether [fopen(p, "w")]
    succeeds. *)
Record filesystem : Type := {
  fs_exists : string -> bool;
  fs_is_regular_file : string -> bool;
  fs_is_directory : string -> bool;
  recursive_directory_iterator : string -> list directory_entry;
  fopen_r : string -> option string;
  fopen_w : string -> bool
}.

(** The command line after [getopt]. *)
Record options : Type := {
  paths : list string;
  extensions : list string;
  ignore_patterns : list string;
  include_hidden : bool;
  ignore_gitignore : bool;
  claude_xml : bool;
  output_file : string
}.

(** [out]: the texts written through [writer], one per [fprintf] call;
    [err]: the texts written to [stderr]; [global_index]: the static
    counter of [print_path]. *)
Record world : Type := {
  out : list string;
  err : list string;
  global_index : Z
}.

Definition initial_world : world :=
  {| out := []; err := []; global_index := 1 |}.

(** A [FILE*]: [None] is the null pointer. *)
Inductive FILE : Type := Stdout | OutputFile.
Definition FILE_ptr : Type := option FILE.

(** Computations on the run's state.  [None] is a run with no defined
    behaviour: a write through a null [FILE*]. *)
Definition M (A : Type) : Type := world -> option (A * world).

Definition ret {A : Type} (a : A) : M A := fun w => Some (a, w).

Definition bind {A B : Type} (m : M A) (k : A -> M B) : M B :=
  fun w => match m w with
           | Some (a, w') => k a w'
           | None => None
           end.

Notation "x <- m ;; k" := (bind m (fun x => k))
  (at level 61, m at next level, right associativity).
Notation "m ;; k" := (bind m (fun _ => k))
  (at level 61, right associativity).

Definition LF : ascii := "010"%char.
Definition CR : ascii := "013"%char.
Definition DQUOTE : ascii := "034"%char.
Definition nl : string := String LF EmptyString.

Definition fprintf (writer : FILE_ptr) (text : string) : M unit :=
  fun w =>
    match writer with
    | Some _ => Some (tt, {| out := (out w ++ [text])%list; err := err w;
                             global_index := global_index w |})
    | None => None
    end.

Definition printe (text : string) : M unit :=
  fun w => Some (tt, {| out := out w; err := (err w ++ [text])%list;
                        global_index := global_index w |}).

(** The 32-bit [int] of the counter, wrapping in two's complement. *)
Definition INT_MAX : Z := 2147483647.
Definition int_wrap (z : Z) : Z := ((z + 2 ^ 31) mod 2 ^ 32 - 2 ^ 31)%Z.

Definition get_global_index : M Z := fun w => Some (global_index w, w).

Definition incr_global_index : M unit :=
  fun w => Some (tt, {| out := out w; err := err w;
                        global_index := int_wrap (global_index w + 1) |}).

(** [printf]'s [%d]. *)
Definition string_of_int (z : Z) : string := NilZero.string_of_int (Z.to_int z).

(** The line that opens a document: the text of the first [fprintf] of
    [print_path]. *)
Definition header (index : Z) : string :=
  "<document index=" ++ String DQUOTE (string_of_int index)
    ++ String DQUOTE (">" ++ nl).

(** ** The program *)

Section Program.

Variable fs : filesystem.

(** *** Gitignore rules *)

Fixpoint should_ignore (path : string) (gitignore_rules : list string) : bool :=
  match gitignore_rules with
  | [] => false
  | rule :: rest =>
      if fnmatch rule (filename path) then true
      else if fs_is_directory fs path && fnmatch (filename path ++ "/") rule
      then true
      else should_ignore path rest
  end.

(** [getline] over the whole stream: the lines of the file, each with its
    newline; a last line without one is a line too. *)
Fixpoint getlines (content : string) : list string :=
  match content with
  | EmptyString => []
  | String c rest =>
      if (c =? LF)%char then String c EmptyString :: getlines rest
      else match getlines rest with
           | [] => [String c EmptyString]
           | line :: lines => String c line :: lines
           end
  end.

(** The characters [strcspn] looks for: carriage return and newline. *)
Definition line_ends : string := String CR (String LF EmptyString).

(** The body of the [while (getline ...)] loop, over the lines read. *)
Fixpoint read_rules (lines : list string) : list string :=
  match lines with
  | [] => []
  | line :: rest =>
      let line := cut line_ends line in
      if (0 <? String.length line)%nat && negb (first_char_is "#" line)
      then line :: read_rules rest
      else read_rules rest
  end.

Definition gitignore_path (path : string) : string := path ++ "/.gitignore".

Definition read_gitignore (path : string) : list string :=
  match fopen_r fs (c_str (gitignore_path path)) with
  | Some content => read_rules (getlines content)
  | None => []
  end.

(** *** The serializer *)

Definition print_path (writer : FILE_ptr) (path content : string) (xml : bool)
  : M unit :=
  if xml then
    index <- get_global_index ;;
    fprintf writer (header index) ;;
    fprintf writer ("<source>" ++ c_str path ++ "</source>" ++ nl) ;;
    fprintf writer ("<document_content>" ++ nl ++ c_str content ++ nl
                      ++ "</document_content>" ++ nl) ;;
    fprintf writer ("</document>" ++ nl) ;;
    incr_global_index
  else
    fprintf writer (c_str path ++ nl ++ "---" ++ nl ++ c_str content ++ nl
                      ++ "---" ++ nl).

Definition read_file_content (path : string) : M string :=
  match fopen_r fs (c_str path) with
  | Some content => ret content
  | None =>
      printe ("Warning: Skipping file " ++ c_str path
                ++ " due to error opening file" ++ nl) ;;
      ret EmptyString
  end.

(** *** The filter chain *)

Definition is_suffix (ext filename : string) : bool :=
  (String.length ext <=? String.length filename)%nat &&
  (substring (String.length filename - String.length ext) (String.length ext)
     filename =? ext).

Fixpoint matches_any (patterns : list string) (filename : string) : bool :=
  match patterns with
  | [] => false
  | pattern :: rest =>
      if fnmatch pattern filename then true else matches_any rest filename
  end.

Fixpoint has_extension (extensions : list string) (filename : string) : bool :=
  match extensions with
  | [] => false
  | ext :: rest =>
      if is_suffix ext filename then true else has_extension rest filename
  end.

Definition should_ignore_file (filename : string)
  (ignore_patterns extensions : list string) (include_hidden : bool) : bool :=
  if negb include_hidden && first_char_is "." filename then true
  else if matches_any ignore_patterns filename then true
  else
    match extensions with
    | _ :: _ => if has_extension extensions filename then false else true
    | [] => false
    end.

Definition process_file (path : string) (writer : FILE_ptr) (claude_xml : bool)
  : M unit :=
  content <- read_file_content path ;;
  match content with
  | String _ _ => print_path writer path content claude_xml
  | EmptyString => ret tt
  end.

(** The body of the loop of [process_directory]. *)
Definition process_entry (entry : directory_entry)
  (extensions : list string) (include_hidden ignore_gitignore : bool)
  (gitignore_rules ignore_patterns : list string)
  (writer : FILE_ptr) (claude_xml : bool) : M unit :=
  if entry_is_directory entry then ret tt
  else
    let file_path := entry_path entry in
    let filename := filename (entry_path entry) in
    if should_ignore_file filename ignore_patterns extensions include_hidden
    then ret tt
    else if negb ignore_gitignore && should_ignore file_path gitignore_rules
    then ret tt
    else process_file file_path writer claude_xml.

(** The loop of [process_directory] over the entries enumerated. *)
Fixpoint process_entries (entries : list directory_entry)
  (extensions : list string) (include_hidden ignore_gitignore : bool)
  (gitignore_rules ignore_patterns : list string)
  (writer : FILE_ptr) (claude_xml : bool) : M unit :=
  match entries with
  | [] => ret tt
  | entry :: rest =>
      process_entry entry extensions include_hidden ignore_gitignore
        gitignore_rules ignore_patterns writer claude_xml ;;
      process_entries rest extensions include_hidden ignore_gitignore
        gitignore_rules ignore_patterns writer claude_xml
  end.

(** A candidate, an entry that is not a directory, is admitted when
    neither filter test of the loop body says [continue]. *)
Definition admitted (file_path : string) (extensions : list string)
  (include_hidden ignore_gitignore : bool)
  (gitignore_rules ignore_patterns : list string) : bool :=
  negb (should_ignore_file (filename file_path) ignore_patterns extensions
          include_hidden)
  && negb (negb ignore_gitignore && should_ignore file_path gitignore_rules).

Definition process_directory (path : string)
  (extensions : list string) (include_hidden ignore_gitignore : bool)
  (gitignore_rules ignore_patterns : list string)
  (writer : FILE_ptr) (claude_xml : bool) : M unit :=
  process_entries (recursive_directory_iterator fs path) extensions
    include_hidden ignore_gitignore gitignore_rules ignore_patterns
    writer claude_xml.

Definition process_path (path : string)
  (extensions : list string) (include_hidden ignore_gitignore : bool)
  (gitignore_rules ignore_patterns : list string)
  (writer : FILE_ptr) (claude_xml : bool) : M unit :=
  if fs_is_regular_file fs path then process_file path writer claude_xml
  else if fs_is_directory fs path then
    process_directory path extensions include_hidden ignore_gitignore
      gitignore_rules ignore_patterns writer claude_xml
  else ret tt.

(** *** The driver *)

(** The [for (const auto& path : paths)] loop of [main] from the root
    [todo] on, with the rules accumulated so far.  The result is the
    rules accumulated, and [false] when the loop left [main] with
    [return 1]. *)
Fixpoint for_paths (opt : options) (writer : FILE_ptr) (all todo : list string)
  (gitignore_rules : list string) : M (bool * list string) :=
  match todo with
  | [] => ret (true, gitignore_rules)
  | path :: rest =>
      if negb (fs_exists fs path) then
        printe ("Path does not exist: " ++ c_str path ++ nl) ;;
        ret (false, gitignore_rules)
      else
        let gitignore_rules :=
          if negb (ignore_gitignore opt)
          then (gitignore_rules ++ read_gitignore (parent_path path))%list
          else gitignore_rules in
        (if claude_xml opt && (path =? hd EmptyString all)
         then fprintf writer ("<documents>" ++ nl) else ret tt) ;;
        process_path path (extensions opt) (include_hidden opt)
          (ignore_gitignore opt) gitignore_rules (ignore_patterns opt)
          writer (claude_xml opt) ;;
        for_paths opt writer all rest gitignore_rules
  end.

(** The roots: [.] when none is given. *)
Definition roots (opt : options) : list string :=
  match paths opt with
  | [] => ["."]
  | _ :: _ => paths opt
  end.

(** The sink: [stdout], or the result of [fopen(output_file, "w")],
    unchecked. *)
Definition open_writer (opt : options) : FILE_ptr :=
  match output_file opt with
  | EmptyString => Some Stdout
  | String _ _ =>
      if fopen_w fs (c_str (output_file opt)) then Some OutputFile else None
  end.

(** [main] after option parsing; the result is the exit status. *)
Definition main (opt : options) : M Z :=
  let writer := open_writer opt in
  r <- for_paths opt writer (roots opt) (roots opt) [] ;;
  if fst r then
    (if claude_xml opt then fprintf writer ("</documents>" ++ nl) else ret tt) ;;
    ret 0%Z
  else ret 1%Z.

End Program.

(** ** Statements about runs *)

(** [m] keeps [P]: from a state with [P] it ends in a state with [P]. *)
Definition keeps {A : Type} (P : world -> Prop) (m : M A) : Prop :=
  forall w a w', P w -> m w = Some (a, w') -> P w'.

(** [m] is defined on every state. *)
Definition defined {A : Type} (m : M A) : Prop :=
  forall w, exists a w', m w = Some (a, w').

(** ** Reading the output *)

(** The bytes that reached the sink. *)
Definition output (w : world) : string := String.concat EmptyString (out w).

(** The texts of a run that open a document, in the order written. *)
Definition is_header (text : string) : bool := prefix "<document index=" text.
Definition headers (w : world) : list string := filter is_header (out w).

(** [indices n]: the document indices 1, 2, ..., n. *)
Definition indices (n : nat) : list Z := map Z.of_nat (seq 1 n).

Definition documents_open : string := "<documents>" ++ nl.
Definition documents_close : string := "</documents>" ++ nl.

(** The four texts of a document in XML mode. *)
Definition xml_document (index : Z) (path content : string) : list string :=
  [header index;
   "<source>" ++ c_str path ++ "</source>" ++ nl;
   "<document_content>" ++ nl ++ c_str content ++ nl
     ++ "</document_content>" ++ nl;
   "</document>" ++ nl].

(** The delimiter of plain output, and a block of it. *)
Definition delimiter : string := nl ++ "---" ++ nl.

Definition plain_block (path content : string) : string :=
  c_str path ++ delimiter ++ c_str content ++ delimiter.

(** How often [text] is among [texts], and how often a run wrote it. *)
Definition count (text : string) (texts : list string) : nat :=
  List.length (filter (String.eqb text) texts).
Definition times_written (text : string) (w : world) : nat :=
  count text (out w).

(** Since the state [w0] the run has written neither tag of the XML
    envelope. *)
Definition no_tag_since (w0 w : world) : Prop :=
  exists texts : list string,
    out w = (out w0 ++ texts)%list /\
    count documents_open texts = 0 /\ count documents_close texts = 0.

(** The texts of a document, as [print_path] writes them. *)
Definition document_texts (xml : bool) (index : Z) (path content : string)
  : list string :=
  if xml then xml_document index path content
  else [plain_block path content].

(** The counter is one more than the number of documents written, and the
    documents written carry the indices from 1 on, as long as the count
    fits an [int]. *)
Definition index_invariant (w : world) : Prop :=
  let n := List.length (headers w) in
  global_index w = int_wrap (Z.of_nat n + 1) /\
  ((Z.of_nat n <= INT_MAX)%Z -> headers w = map header (indices n)).

(** A line that [read_gitignore] stores. *)
Definition is_rule (rule : string) : Prop :=
  rule <> EmptyString /\ first_char_is "#" rule = false.

(** Splitting on a delimiter, occurrences taken from the left.  [skip] is
    the number of characters left to drop of an occurrence found; [piece]
    is the piece being read. *)
Fixpoint split_from (d : string) (skip : nat) (piece : string) (s : string)
  : list string :=
  match s with
  | EmptyString => [piece]
  | String c s' =>
      match skip with
      | S k => split_from d k piece s'
      | O =>
          if prefix d s
          then piece :: split_from d (String.length d - 1) EmptyString s'
          else split_from d 0 (piece ++ String c EmptyString) s'
      end
  end.

Definition split_on (d s : string) : list string := split_from d 0 EmptyString s.

(** What splitting gives back for a list of documents: path, content,
    path, content, ..., and the empty piece after the last delimiter. *)
Definition pieces (docs : list (string * string)) : list string :=
  (flat_map (fun d => [fst d; snd d]) docs ++ [EmptyString])%list.

(** [x], followed by the delimiter, has the delimiter at its end only. *)
Fixpoint delimiter_free (x : string) : bool :=
  match x with
  | EmptyString => true
  | String _ x' => negb (prefix delimiter (x ++ delimiter)) && delimiter_free x'
  end.

(** A document that splitting gives back: neither its path nor its content
    has a NUL character, or an occurrence of the delimiter that starts in
    it. *)
Definition splittable (d : string * string) : Prop :=
  c_str (fst d) = fst d /\ c_str (snd d) = snd d /\
  delimiter_free (fst d) = true /\ delimiter_free (snd d) = true.

(** A document of a run: a path and the content read from it, not
    empty. *)
Definition read_from (fs : filesystem) (d : string * string) : Prop :=
  fopen_r fs (c_str (fst d)) = Some (snd d) /\ snd d <> EmptyString.

(** In plain mode the texts written are the blocks of the documents of the
    run, in the order written. *)
Definition plain_invariant (fs : filesystem) (w : world) : Prop :=
  exists docs : list (string * string),
    out w = map (fun d => plain_block (fst d) (snd d)) docs /\
    Forall (read_from fs) docs.

(** ** The rule match as the specification words it

    Section 4.1 of the specification: an entry matches when, for some rule
    pattern P, its base filename matches P, or it is a directory and its
    base filename followed by a slash matches P. *)
Definition spec_matches (basename : string) (is_directory : bool)
  (rules : list string) : bool :=
  existsb (fun P => fnmatch P basename
                    || (is_directory && fnmatch P (basename ++ "/"))) rules.

(** ** Small file systems to run the program on *)

Module Demo.

Fixpoint lookup {A : Type} (key : string) (table : list (string * A))
  : option A :=
  match table with
  | [] => None
  | (k, a) :: rest => if k =? key then Some a else lookup key rest
  end.

Definition known {A : Type} (key : string) (table : list (string * A)) : bool :=
  match lookup key table with Some _ => true | None => false end.

Definition file (path : string) : directory_entry :=
  {| entry_path := path; entry_is_directory := false |}.
Definition dir (path : string) : directory_entry :=
  {| entry_path := path; entry_is_directory := true |}.

(** A file system of readable [files] with their content and of
    directories with their descendants in enumeration order; no file can
    be opened for writing. *)
Definition make_fs (files : list (string * string))
  (dirs : list (string * list directory_entry)) : filesystem :=
  {| fs_exists p := known p files || known p dirs;
     fs_is_regular_file p := known p files;
     fs_is_directory p := known p dirs;
     recursive_directory_iterator p :=
       match lookup p dirs with Some entries => entries | None => [] end;
     fopen_r p := lookup p files;
     fopen_w _ := false |}.

(** The directory of the specification's scenarios, with a subdirectory
    [build] and a rule file beside it. *)
Definition project : filesystem :=
  make_fs
    [("proj/a.txt", "hi"); ("proj/.hidden", "x"); ("proj/b.log", EmptyString);
     ("proj/build/x.o", "obj"); ("notes.md", "todo");
     ("diff.txt", "a" ++ delimiter ++ "b");
     ("/.gitignore", "*.o" ++ nl ++ nl ++ "# comment" ++ nl ++ "build/" ++ nl)]
    [("proj", [file "proj/a.txt"; file "proj/.hidden"; file "proj/b.log";
               dir "proj/build"; file "proj/build/x.o"]);
     ("proj/build", [file "proj/build/x.o"]);
     ("build", []);
     ("empty", [])].

(** The options of the specification's first scenario: only [.txt]
    files, gitignore rules not honoured, plain output. *)
Definition txt_only (roots : list string) : options :=
  {| paths := roots; extensions := [".txt"]; ignore_patterns := [];
     include_hidden := false; ignore_gitignore := true;
     claude_xml := false; output_file := EmptyString |}.

(** No option given but the roots: gitignore rules are honoured. *)
Definition defaults (roots : list string) : options :=
  {| paths := roots; extensions := []; ignore_patterns := [];
     include_hidden := false; ignore_gitignore := false;
     claude_xml := false; output_file := EmptyString |}.

Definition with_paths (roots : list string) (xml : bool) : options :=
  {| paths := roots; extensions := []; ignore_patterns := [];
     include_hidden := false; ignore_gitignore := true;
     claude_xml := xml; output_file := EmptyString |}.

(** The same with output to a file in a directory that does not
    exist. *)
Definition to_file (roots : list string) (xml : bool) : options :=
  {| paths := roots; extensions := []; ignore_patterns := [];
     include_hidden := false; ignore_gitignore := true;
     claude_xml := xml; output_file := "missing/out.txt" |}.

End Demo.

(** ** Files in sequence, and the files a root selects *)

(** [process_file] on each path in turn. *)
Fixpoint process_files (fs : filesystem) (files : list string)
  (writer : FILE_ptr) (claude_xml : bool) : M unit :=
  match files with
  | [] => ret tt
  | file :: rest =>
      process_file fs file writer claude_xml ;;
      process_files fs rest writer claude_xml
  end.

(** The files of a root that reach [process_file], in the order they are
    visited: the root itself when it is a regular file, the admitted
    entries that are not directories when it is a directory. *)
Definition selected (fs : filesystem) (path : string)
  (extensions : list string) (include_hidden ignore_gitignore : bool)
  (gitignore_rules ignore_patterns : list string) : list string :=
  if fs_is_regular_file fs path then [path]
  else if fs_is_directory fs path then
    map entry_path
      (filter (fun entry =>
                 negb (entry_is_directory entry)
                 && admitted fs (entry_path entry) extensions include_hidden
                      ignore_gitignore gitignore_rules ignore_patterns)
         (recursive_directory_iterator fs path))
  else [].

(** The options with gitignore rules not honoured. *)
Definition without_gitignore (opt : options) : options :=
  {| paths := paths opt; extensions := extensions opt;
     ignore_patterns := ignore_patterns opt;
     include_hidden := include_hidden opt; ignore_gitignore := true;
     claude_xml := claude_xml opt; output_file := output_file opt |}.

(** The rule files of the roots: the rules [main] reads for each root in
    turn. *)
Definition rules_of_roots (fs : filesystem) (roots : list string) : list string :=
  flat_map (fun path => read_gitignore fs (parent_path path)) roots.

(** A text file with DOS line ends: a carriage return before each
    newline. *)
Fixpoint to_crlf (content : string) : string :=
  match content with
  | EmptyString => EmptyString
  | String c rest =>
      if (c =? LF)%char then String CR (String LF (to_crlf rest))
      else String c (to_crlf rest)
  end.

(** The first line of a stream, with its newline, and what follows it. *)
Fixpoint split_line (s : string) : string * string :=
  match s with
  | EmptyString => (EmptyString, EmptyString)
  | String c s' =>
      if (c =? LF)%char then (String c EmptyString, s')
      else let (line, rest) := split_line s' in (String c line, rest)
  end.

(** A text whose carriage returns all stand before a newline, and that has
    no NUL character. *)
Fixpoint crlf_text (s : string) : bool :=
  match s with
  | EmptyString => true
  | String c s' =>
      negb (c =? NUL)%char
      && (if (c =? CR)%char then first_char_is LF s' else true)
      && crlf_text s'
  end.

(** The documents of files in sequence: each file that opens and does not
    read empty, with its content. *)
Definition readable_documents (fs : filesystem) (files : list string)
  : list (string * string) :=
  flat_map (fun file =>
              match fopen_r fs (c_str file) with
              | Some (String c content) => [(file, String c content)]
              | _ => []
              end) files.

(** The documents of the roots [todo], each root under the rules held
    when it is reached. *)
Fixpoint documents_of_roots (fs : filesystem) (opt : options)
  (todo rules : list string) : list (string * string) :=
  match todo with
  | [] => []
  | path :: rest =>
      let rules :=
        if negb (ignore_gitignore opt)
        then (rules ++ read_gitignore fs (parent_path path))%list
        else rules in
      (readable_documents fs
         (selected fs path (extensions opt) (include_hidden opt)
            (ignore_gitignore opt) rules (ignore_patterns opt))
       ++ documents_of_roots fs opt rest rules)%list
  end.

(** ** The variant with its own line reader

    The source file that parses its options in a class [Opt] reads rule
    files with a [getline] of its own, built on [fgets] and a buffer of
    120 characters.  An open stream is the text left to read. *)

Module Reader.

Definition BUFFER_SIZE : nat := 120.

(** [fgets(buffer, n, fp)] on a stream that is not at its end: at most
    [limit] characters, through the first newline. *)
Fixpoint fgets_take (limit : nat) (fp : string) : string * string :=
  match limit with
  | O => (EmptyString, fp)
  | S limit' =>
      match fp with
      | EmptyString => (EmptyString, EmptyString)
      | String c fp' =>
          if (c =? LF)%char then (String c EmptyString, fp')
          else let (buffer, rest) := fgets_take limit' fp' in
               (String c buffer, rest)
      end
  end.

(** [fgets(buffer, n, fp)]: the characters stored and the stream after
    them; [None] is the null pointer at the end of the stream. *)
Definition fgets (n : nat) (fp : string) : option (string * string) :=
  match fp with
  | EmptyString => None
  | String _ _ => Some (fgets_take (n - 1) fp)
  end.

(** [strchr(s, c) - s] on the array holding [s] and a closing NUL. *)
Fixpoint strchr (s : string) (c : ascii) : option nat :=
  match s with
  | EmptyString => if (c =? NUL)%char then Some 0 else None
  | String d s' =>
      if (d =? c)%char then Some 0
      else if (d =? NUL)%char then None
      else option_map S (strchr s' c)
  end.

(** The [while (true)] loop of [getdelim]: the line so far, the count so
    far and the stream.  Every turn reads at least one character, so
    [fuel] above the length of the stream is never used up. *)
Fixpoint getdelim_loop (fuel : nat) (delimiter : ascii)
  (lineptr : string) (cur_len : Z) (fp : string) : string * Z * string :=
  match fuel with
  | O => (lineptr, cur_len, fp)
  | S fuel' =>
      match fgets BUFFER_SIZE fp with
      | None => (lineptr, cur_len, fp)
      | Some (buffer, fp') =>
          match strchr buffer delimiter with
          | Some pos =>
              (lineptr ++ substring 0 (pos + 1) buffer,
               (cur_len + Z.of_nat pos + 1)%Z, fp')
          | None =>
              getdelim_loop fuel' delimiter (lineptr ++ c_str buffer)
                (cur_len + Z.of_nat BUFFER_SIZE - 1)%Z fp'
          end
      end
  end.

(** [getdelim(lineptr, delimiter, fp)] on an open stream without error:
    the line, the result and the stream after the call. *)
Definition getdelim (delimiter : ascii) (fp : string) : string * Z * string :=
  let '(lineptr, cur_len, fp') :=
    getdelim_loop (S (String.length fp)) delimiter EmptyString 0 fp in
  (lineptr, if (0 <? cur_len)%Z then cur_len else (-1)%Z, fp').

Definition getline (fp : string) : string * Z * string := getdelim LF fp.

(** [line.erase(std::remove(line.begin(), line.end(), c), line.end())]. *)
Fixpoint erase (c : ascii) (line : string) : string :=
  match line with
  | EmptyString => EmptyString
  | String d line' =>
      if (d =? c)%char then erase c line' else String d (erase c line')
  end.

(** The [while (getline(line, file.get()) != -1)] loop of
    [read_gitignore].  A call that does not return -1 has read at least
    one character. *)
Fixpoint read_loop (fuel : nat) (fp : string) : list string :=
  match fuel with
  | O => []
  | S fuel' =>
      let '(line, result, fp') := getline fp in
      if (result =? -1)%Z then []
      else
        let line := erase LF (erase CR line) in
        if (0 <? String.length line)%nat && negb (first_char_is "#" line)
        then line :: read_loop fuel' fp'
        else read_loop fuel' fp'
  end.

Definition read_gitignore (fs : filesystem) (path : string) : list string :=
  match fopen_r fs (c_str (gitignore_path path)) with
  | Some content => read_loop (S (String.length content)) content
  | None => []
  end.

(** A stream whose first line, of 144 characters and a newline, does
    not fit the buffer. *)
Definition long_stream : string :=
  String.concat "0123456789"
    ["a"; "b"; "c"; "d"; "e"; "f"; "g"; "h"; "i"; "j"; "k"; "l"; "m"; "n"]
    ++ nl ++ "next".

End Reader.

(** ** The variants with the filter chain inside [process_path]

    Two earlier source files have no [process_file], [process_directory]
    or [should_ignore_file]: [process_path] opens and prints the file
    itself, and asks the filters in the order hidden file, gitignore
    rules, ignore patterns, extensions. *)

Module Inline.

Section Variant.

Variable fs : filesystem.

(** How the variant hands the bytes read to [print_path]: as they are
    from a [std::string], cut at the first NUL from a [char*]. *)
Variable as_string : string -> string.

(** The [fopen] block: the file is printed whatever its size. *)
Definition print_file (path : string) (writer : FILE_ptr) (claude_xml : bool)
  : M unit :=
  match fopen_r fs (c_str path) with
  | Some content => print_path writer path (as_string content) claude_xml
  | None =>
      printe ("Warning: Skipping file " ++ c_str path
                ++ " due to error opening file" ++ nl)
  end.

(** The body of the loop over the entries of a directory. *)
Definition visit (entry : directory_entry)
  (extensions : list string) (include_hidden ignore_gitignore : bool)
  (gitignore_rules ignore_patterns : list string)
  (writer : FILE_ptr) (claude_xml : bool) : M unit :=
  if entry_is_directory entry then ret tt
  else
    let file_path := entry_path entry in
    let filename := filename (entry_path entry) in
    if negb include_hidden && first_char_is "." filename then ret tt
    else if negb ignore_gitignore && should_ignore fs file_path gitignore_rules
    then ret tt
    else if matches_any ignore_patterns filename then ret tt
    else
      match extensions with
      | _ :: _ =>
          if has_extension extensions filename
          then print_file file_path writer claude_xml
          else ret tt
      | [] => print_file file_path writer claude_xml
      end.

Fixpoint visit_all (entries : list directory_entry)
  (extensions : list string) (include_hidden ignore_gitignore : bool)
  (gitignore_rules ignore_patterns : list string)
  (writer : FILE_ptr) (claude_xml : bool) : M unit :=
  match entries with
  | [] => ret tt
  | entry :: rest =>
      visit entry extensions include_hidden ignore_gitignore
        gitignore_rules ignore_patterns writer claude_xml ;;
      visit_all rest extensions include_hidden ignore_gitignore
        gitignore_rules ignore_patterns writer claude_xml
  end.

Definition process_path (path : string)
  (extensions : list string) (include_hidden ignore_gitignore : bool)
  (gitignore_rules ignore_patterns : list string)
  (writer : FILE_ptr) (claude_xml : bool) : M unit :=
  if fs_is_regular_file fs path then print_file path writer claude_xml
  else if fs_is_directory fs path then
    visit_all (recursive_directory_iterator fs path) extensions
      include_hidden ignore_gitignore gitignore_rules ignore_patterns
      writer claude_xml
  else ret tt.

End Variant.

(** The variant that reads into a [std::string]. *)
Definition process_path_string (fs : filesystem) :=
  process_path fs (fun content => content).

(** The variant that reads into a [char*] buffer closed by a NUL, from
    which the [std::string] argument of [print_path] is built. *)
Definition process_path_buffer (fs : filesystem) :=
  process_path fs c_str.

(** [print_file] on each path in turn. *)
Fixpoint print_files (fs : filesystem) (as_string : string -> string)
  (files : list string) (writer : FILE_ptr) (claude_xml : bool) : M unit :=
  match files with
  | [] => ret tt
  | file :: rest =>
      print_file fs as_string file writer claude_xml ;;
      print_files fs as_string rest writer claude_xml
  end.

End Inline.

(** * Properties *)

(** ** The models on small inputs *)

Example fnmatch_star : fnmatch "*.log" "build.log" = true.
Proof. reflexivity. Qed.
Example fnmatch_star_slash : fnmatch "b*/" "build/" = true.
Proof. reflexivity. Qed.
Example fnmatch_set : fnmatch "[a-c]?[!x].[[:digit:]]" "bzy.7" = true.
Proof. reflexivity. Qed.
Example fnmatch_set_no : fnmatch "[a-c]?[!x].[[:digit:]]" "bzx.7" = false.
Proof. reflexivity. Qed.
Example fnmatch_open_bracket : fnmatch "[ab" "[ab" = true.
Proof. reflexivity. Qed.
Example fnmatch_empty : fnmatch EmptyString "a" = false.
Proof. reflexivity. Qed.
Example filename_nested : filename "src/build/a.o" = "a.o".
Proof. reflexivity. Qed.
Example filename_trailing : filename "src/build/" = EmptyString.
Proof. reflexivity. Qed.
Example parent_path_nested : parent_path "src//build/a.o" = "src//build".
Proof. reflexivity. Qed.
Example parent_path_root : parent_path "/a.o" = "/".
Proof. reflexivity. Qed.
Example parent_path_trailing : parent_path "src/" = "src".
Proof. reflexivity. Qed.
Example parent_path_dot : parent_path "." = EmptyString.
Proof. reflexivity. Qed.
Example string_of_int_12 : string_of_int 12 = "12".
Proof. reflexivity. Qed.
Example string_of_int_neg : string_of_int (-7) = "-7".
Proof. reflexivity. Qed.
Example string_of_int_0 : string_of_int 0 = "0".
Proof. reflexivity. Qed.
Example getlines_last_line :
  getlines ("a" ++ nl ++ nl ++ "b") = ["a" ++ nl; nl; "b"].
Proof. reflexivity. Qed.
Example read_gitignore_project :
  read_gitignore Demo.project EmptyString = ["*.o"; "build/"].
Proof. reflexivity. Qed.
Example split_on_blocks :
  split_on delimiter (plain_block "p" "hi" ++ plain_block "q" "x")
  = ["p"; "hi"; "q"; "x"; EmptyString].
Proof. reflexivity. Qed.

Example fnmatch_quoted_star : fnmatch "a\*" "ab" = false.
Proof. reflexivity. Qed.
Example fnmatch_bracket_first : fnmatch "[]x]y" "]y" = true.
Proof. reflexivity. Qed.
Example fnmatch_trailing_backslash : fnmatch "a\" "a\" = false.
Proof. reflexivity. Qed.
Example fnmatch_question_slash : fnmatch "a?b" "a/b" = true.
Proof. reflexivity. Qed.

(** The first scenario of the specification: of [a.txt], [.hidden] and the
    empty [b.log] only [a.txt] is written. *)
Example scenario_txt_only :
  main Demo.project (Demo.txt_only ["proj"]) initial_world
  = Some (0%Z, {| out := [plain_block "proj/a.txt" "hi"]; err := [];
                  global_index := 1 |}).
Proof. vm_compute. reflexivity. Qed.

(** The third scenario: the rule [*.o] of the rule file beside the root
    takes [x.o] out when the rules are honoured. *)
Example scenario_gitignore :
  option_map (fun r => out (snd r))
    (main Demo.project (Demo.defaults ["proj"]) initial_world)
  = Some [plain_block "proj/a.txt" "hi"] /\
  option_map (fun r => out (snd r))
    (main Demo.project (Demo.with_paths ["proj"] false) initial_world)
  = Some [plain_block "proj/a.txt" "hi"; plain_block "proj/build/x.o" "obj"].
Proof. split; vm_compute; reflexivity. Qed.

(** A root that does not exist ends the run with status 1 and a message,
    before the roots after it. *)
Example missing_root :
  main Demo.project (Demo.with_paths ["nowhere"; "notes.md"] false)
    initial_world
  = Some (1%Z, {| out := [];
                  err := ["Path does not exist: nowhere" ++ nl];
                  global_index := 1 |}).
Proof. vm_compute. reflexivity. Qed.

(** ** Strings *)

Section Strings.

Lemma append_nil_r (s : string) : s ++ EmptyString = s.
Proof. induction s as [|c s IH]; simpl; [reflexivity | now rewrite IH]. Qed.

Lemma append_assoc (a b c : string) : (a ++ b) ++ c = a ++ (b ++ c).
Proof. induction a as [|x a IH]; simpl; [reflexivity | now rewrite IH]. Qed.

Lemma length_append (a b : string) :
  String.length (a ++ b) = String.length a + String.length b.
Proof. induction a as [|x a IH]; simpl; [reflexivity | now rewrite IH]. Qed.

Lemma substring_all (s : string) : substring 0 (String.length s) s = s.
Proof. induction s as [|c s IH]; simpl; [reflexivity | now rewrite IH]. Qed.

Lemma substring_skip (a b : string) :
  substring (String.length a) (String.length b) (a ++ b) = b.
Proof. induction a as [|x a IH]; simpl; [apply substring_all | exact IH]. Qed.

Lemma substring_split (n m : nat) (s : string) :
  n + m = String.length s -> s = substring 0 n s ++ substring n m s.
Proof.
  revert s; induction n as [|n IH]; intros s H.
  - simpl in H. subst m. rewrite substring_all.
    destruct s; reflexivity.
  - destruct s as [|c s]; simpl in H; [discriminate|].
    simpl. f_equal. apply IH. lia.
Qed.

(** [filename.compare(size - ext.size(), ext.size(), ext) == 0] under its
    length guard says that [filename] ends with [ext]. *)
Lemma is_suffix_ends_with (ext filename : string) :
  is_suffix ext filename = true <-> ends_with filename ext.
Proof.
  unfold is_suffix, ends_with. split.
  - intros H. apply andb_true_iff in H as [Hlen Heq].
    apply Nat.leb_le in Hlen. apply String.eqb_eq in Heq.
    exists (substring 0 (String.length filename - String.length ext) filename).
    pose proof (substring_split
                  (String.length filename - String.length ext)
                  (String.length ext) filename) as Hs.
    rewrite Heq in Hs. apply Hs. lia.
  - intros [front ->]. apply andb_true_iff. split.
    + apply Nat.leb_le. rewrite length_append. lia.
    + apply String.eqb_eq. rewrite length_append.
      replace (String.length front + String.length ext - String.length ext)
        with (String.length front) by lia.
      apply substring_skip.
Qed.

Lemma mem_append (c : ascii) (a b : string) :
  mem c (a ++ b) = mem c a || mem c b.
Proof.
  induction a as [|x a IH]; simpl; [reflexivity|].
  rewrite IH. apply orb_assoc.
Qed.

Lemma c_str_no_NUL (s : string) : mem NUL s = false -> c_str s = s.
Proof.
  induction s as [|c s IH]; simpl; [reflexivity|].
  intros H. apply orb_false_iff in H as [Hc Hs].
  rewrite Ascii.eqb_sym, Hc. now rewrite IH.
Qed.

Lemma c_str_mem_NUL (s : string) : mem NUL (c_str s) = false.
Proof.
  induction s as [|c s IH]; simpl; [reflexivity|].
  destruct (c =? NUL)%char eqn:E; simpl; [reflexivity|].
  now rewrite Ascii.eqb_sym, E, IH.
Qed.

End Strings.

(** ** The filter chain *)

Section FilterChain.

Variable fs : filesystem.

Lemma matches_any_false (patterns : list string) (name : string) :
  matches_any patterns name = false <->
  forall pattern, In pattern patterns -> fnmatch pattern name = false.
Proof.
  induction patterns as [|p ps IH]; simpl.
  - split; [intros _ q [] | reflexivity].
  - destruct (fnmatch p name) eqn:E.
    + split; [discriminate|]. intros H. rewrite <- E. apply H. now left.
    + rewrite IH. split.
      * intros H q [<-|Hq]; [exact E | now apply H].
      * intros H q Hq. apply H. now right.
Qed.

Lemma has_extension_true (exts : list string) (name : string) :
  has_extension exts name = true <->
  exists ext, In ext exts /\ ends_with name ext.
Proof.
  induction exts as [|e es IH]; simpl.
  - split; [discriminate | intros [ext [[] _]]].
  - destruct (is_suffix e name) eqn:E.
    + split; [|reflexivity]. intros _. exists e. split; [now left|].
      now apply is_suffix_ends_with.
    + rewrite IH. split.
      * intros [ext [Hin Hend]]. exists ext. split; [now right | exact Hend].
      * intros [ext [[<-|Hin] Hend]].
        -- apply is_suffix_ends_with in Hend. congruence.
        -- exists ext. now split.
Qed.

(** What [should_ignore_file] rejects. *)
Lemma should_ignore_file_false (name : string) (pats exts : list string)
  (hidden : bool) :
  should_ignore_file name pats exts hidden = false <->
  (first_char_is "." name = false \/ hidden = true) /\
  (forall pattern, In pattern pats -> fnmatch pattern name = false) /\
  (exts = [] \/ exists ext, In ext exts /\ ends_with name ext).
Proof.
  unfold should_ignore_file.
  rewrite <- matches_any_false.
  destruct hidden, (first_char_is "." name); simpl;
    try (split; [discriminate | intros [[H|H] _]; discriminate]);
    (destruct (matches_any pats name);
     [ split; [discriminate | intros [_ [H _]]; discriminate] | ]);
    (destruct exts as [|e es];
     [ split; [intros _; repeat split; auto | reflexivity] | ]);
    (destruct (has_extension (e :: es) name) eqn:E;
     [ apply has_extension_true in E; split;
       [ intros _; repeat split; auto | reflexivity ]
     | split; [discriminate|];
       intros [_ [_ [H|H]]]; [discriminate|];
       apply has_extension_true in H; congruence ]).
Qed.

End FilterChain.

(** C1: a candidate produced by directory enumeration is admitted if and
    only if all four checks pass: its filename does not start with a period
    or hidden files are included; its filename matches none of the ignore
    patterns; gitignore rules are not honoured or the accumulated rule set
    does not match it; the extension list is empty or the filename ends
    with one of the extensions.  The loop body of [process_directory] hands
    exactly the admitted candidates to [process_file]. *)
Theorem C1_admitted_iff_four_checks :
  forall (fs : filesystem) (entry : directory_entry)
         (exts : list string) (hidden no_gitignore : bool)
         (rules pats : list string),
    let path := entry_path entry in
    let name := filename path in
    (admitted fs path exts hidden no_gitignore rules pats = true <->
       (first_char_is "." name = false \/ hidden = true) /\
       (forall pattern, In pattern pats -> fnmatch pattern name = false) /\
       (no_gitignore = true \/ should_ignore fs path rules = false) /\
       (exts = [] \/ exists ext, In ext exts /\ ends_with name ext))
    /\
    (forall (writer : FILE_ptr) (xml : bool),
       process_entry fs entry exts hidden no_gitignore rules pats writer xml
       = if entry_is_directory entry then ret tt
         else if admitted fs path exts hidden no_gitignore rules pats
              then process_file fs path writer xml
              else ret tt).
Proof.
  intros fs entry exts hidden no_gitignore rules pats path name. split.
  - unfold admitted. fold name.
    rewrite andb_true_iff, !negb_true_iff, should_ignore_file_false.
    destruct no_gitignore; simpl.
    + intuition.
    + split.
      * intros [[H1 [H2 H3]] H4]. repeat split; auto.
      * intros [H1 [H2 [[H3|H3] H4]]]; [discriminate|]. repeat split; auto.
  - intros writer xml. unfold process_entry, admitted. fold path name.
    destruct (entry_is_directory entry); [reflexivity|].
    destruct (should_ignore_file name pats exts hidden); [reflexivity|].
    simpl. destruct (negb no_gitignore && should_ignore fs path rules);
      reflexivity.
Qed.

(** ** Gitignore rules *)

Section Gitignore.

Variable fs : filesystem.

(** For an entry that is not a directory the rule match looks at the
    base filename only. *)
Lemma should_ignore_file_entry (path : string) (rules : list string) :
  fs_is_directory fs path = false ->
  should_ignore fs path rules = matches_any rules (filename path).
Proof.
  intros Hdir. induction rules as [|rule rest IH]; simpl; [reflexivity|].
  rewrite Hdir, IH. simpl. reflexivity.
Qed.

Lemma cut_no_NUL (line : string) :
  mem NUL (cut line_ends line) = false.
Proof.
  induction line as [|c line IH]; cbn [cut mem]; [reflexivity|].
  destruct ((c =? NUL)%char || mem c line_ends) eqn:E; cbn [mem];
    [reflexivity|].
  apply orb_false_iff in E as [E _].
  now rewrite Ascii.eqb_sym, E, IH.
Qed.

Lemma read_rules_In (lines : list string) (rule : string) :
  In rule (read_rules lines) <->
  exists line, In line lines /\ rule = cut line_ends line /\ is_rule rule.
Proof.
  unfold is_rule. induction lines as [|line rest IH]; simpl.
  - split; [intros [] | intros [l [[] _]]].
  - destruct (cut line_ends line) as [|c r] eqn:E; simpl.
    + rewrite IH. split.
      * intros [l [Hin H]]. exists l. split; [now right | exact H].
      * intros [l [[<-|Hin] [H1 [H2 H3]]]].
        -- rewrite E in H1. contradiction.
        -- exists l. repeat split; auto.
    + destruct (c =? "#")%char eqn:Ec; simpl.
      * rewrite IH. split.
        -- intros [l [Hin H]]. exists l. split; [now right | exact H].
        -- intros [l [[<-|Hin] [H1 [H2 H3]]]].
           ++ rewrite E in H1. subst rule. simpl in H3. congruence.
           ++ exists l. repeat split; auto.
      * split.
        -- intros [<-|Hin].
           ++ exists line. rewrite E. simpl. rewrite Ec.
              repeat split; auto. discriminate.
           ++ apply IH in Hin as [l [Hin H]]. exists l.
              split; [now right | exact H].
        -- intros [l [[<-|Hin] [H1 [H2 H3]]]].
           ++ left. rewrite E in H1. now symmetry.
           ++ right. apply IH. exists l. repeat split; auto.
Qed.

(** A rule stored is a C string: it holds no NUL character. *)
Lemma read_gitignore_no_NUL (path rule : string) :
  In rule (read_gitignore fs path) -> mem NUL rule = false.
Proof.
  unfold read_gitignore.
  destruct (fopen_r fs (c_str (gitignore_path path))); [|intros []].
  intros H. apply read_rules_In in H as [line [_ [-> _]]].
  apply cut_no_NUL.
Qed.

End Gitignore.


(** What [should_ignore] computes: some rule matches the base filename as
    a pattern, or the entry is a directory and some rule, as a string,
    matches the pattern made of the base filename and a slash. *)
Lemma should_ignore_existsb :
  forall (fs : filesystem) (path : string) (rules : list string),
    should_ignore fs path rules
    = existsb (fun rule =>
                 fnmatch rule (filename path)
                 || (fs_is_directory fs path
                     && fnmatch (filename path ++ "/") rule)) rules.
Proof.
  intros fs path rules. induction rules as [|rule rest IH]; [reflexivity|].
  cbn [should_ignore existsb]. rewrite IH.
  destruct (fnmatch rule (filename path)); [reflexivity|].
  destruct (fs_is_directory fs path && fnmatch (filename path ++ "/") rule);
    reflexivity.
Qed.

(** For an entry that is not a directory the code and the claim of C2
    agree. *)
Lemma should_ignore_agrees_on_files :
  forall (fs : filesystem) (path : string) (rules : list string),
    fs_is_directory fs path = false ->
    should_ignore fs path rules = spec_matches (filename path) false rules.
Proof.
  intros fs path rules Hdir. rewrite should_ignore_file_entry by exact Hdir.
  induction rules as [|rule rest IH]; simpl; [reflexivity|].
  rewrite IH, orb_false_r. destruct (fnmatch rule (filename path)); reflexivity.
Qed.

(** C3 as stated fails: the rule file of [Demo.project] has a blank line,
    empty once its newline is cut, and no empty rule is stored for it. *)
Lemma C3_blank_line_not_retained :
  exists content,
    fopen_r Demo.project (c_str (gitignore_path EmptyString)) = Some content /\
    In nl (getlines content) /\
    cut line_ends nl = EmptyString /\
    ~ In EmptyString (read_gitignore Demo.project EmptyString).
Proof.
  eexists. split; [reflexivity|]. split; [right; left; reflexivity|].
  split; [reflexivity|]. simpl. intros [H|[H|[]]]; discriminate.
Qed.

(** C3, amended: the rules loaded from a gitignore file are the lines of
    the file, cut at the first carriage return, newline or NUL, that are
    not empty and do not start with [#].  Blank lines are excluded as
    comment lines are, and no empty rule is ever stored. *)
Theorem C3_rules_are_nonblank_noncomment_lines :
  forall (fs : filesystem) (path rule : string),
    (In rule (read_gitignore fs path) <->
       exists content line,
         fopen_r fs (c_str (gitignore_path path)) = Some content /\
         In line (getlines content) /\
         rule = cut line_ends line /\
         rule <> EmptyString /\ first_char_is "#" rule = false)
    /\ ~ In EmptyString (read_gitignore fs path).
Proof.
  intros fs path rule. unfold read_gitignore.
  destruct (fopen_r fs (c_str (gitignore_path path))) as [content|].
  - split.
    + rewrite read_rules_In. split.
      * intros [line H]. exists content, line. split; [reflexivity | exact H].
      * intros [content' [line [Heq H]]]. injection Heq as <-.
        exists line. exact H.
    + intros H. apply read_rules_In in H as [line [_ [_ [H _]]]]. now apply H.
  - split; [|intros []]. split; [intros [] |].
    intros [content [line [H _]]]. discriminate.
Qed.

(** ** Runs: what every step keeps, and that steps are defined *)

Lemma keeps_ret {A : Type} (P : world -> Prop) (a : A) : keeps P (ret a).
Proof. intros w a' w' HP H. injection H as _ <-. exact HP. Qed.

Lemma defined_ret {A : Type} (a : A) : defined (ret a).
Proof. intros w. now exists a, w. Qed.

Lemma keeps_bind {A B : Type} (P : world -> Prop) (m : M A) (k : A -> M B) :
  keeps P m -> (forall a, keeps P (k a)) -> keeps P (bind m k).
Proof.
  intros Hm Hk w b w' HP H. unfold bind in H.
  destruct (m w) as [[a w1]|] eqn:E; [|discriminate].
  eapply Hk; [|exact H]. eapply Hm; eauto.
Qed.

Lemma defined_bind {A B : Type} (m : M A) (k : A -> M B) :
  defined m -> (forall a, defined (k a)) -> defined (bind m k).
Proof.
  intros Hm Hk w. destruct (Hm w) as [a [w1 E]].
  unfold bind. rewrite E. apply Hk.
Qed.

Lemma defined_fprintf (f : FILE) (text : string) : defined (fprintf (Some f) text).
Proof. intros w. simpl. eauto. Qed.

Lemma defined_printe (text : string) : defined (printe text).
Proof. intros w. unfold printe. eauto. Qed.

Create HintDb runs.
#[local] Hint Resolve keeps_ret defined_ret defined_fprintf defined_printe : runs.

(** The three ways of [process_file]: a file read with content goes to
    [print_path]; a file read empty leaves no trace; a file that cannot be
    opened leaves a warning on [stderr]. *)
Lemma process_file_cases (fs : filesystem) (path : string) (writer : FILE_ptr)
  (xml : bool) :
  (exists content,
      fopen_r fs (c_str path) = Some content /\ content <> EmptyString /\
      process_file fs path writer xml = print_path writer path content xml)
  \/ (fopen_r fs (c_str path) = Some EmptyString /\
      process_file fs path writer xml = ret tt)
  \/ (fopen_r fs (c_str path) = None /\
      process_file fs path writer xml
      = (printe ("Warning: Skipping file " ++ c_str path
                   ++ " due to error opening file" ++ nl) ;; ret tt)).
Proof.
  unfold process_file, read_file_content.
  destruct (fopen_r fs (c_str path)) as [[|c content]|].
  - right; left. split; reflexivity.
  - left. exists (String c content). repeat split. discriminate.
  - right; right. split; reflexivity.
Qed.

Section Steps.

Variable fs : filesystem.
Variable writer : FILE_ptr.
Variable xml : bool.
Variable P : world -> Prop.

(** [P] is kept by the serializer, on a file read with content, and by
    the diagnostics. *)
Hypothesis print_path_keeps :
  forall path content,
    fopen_r fs (c_str path) = Some content -> content <> EmptyString ->
    keeps P (print_path writer path content xml).
Hypothesis printe_keeps : forall text, keeps P (printe text).

Lemma process_file_keeps (path : string) :
  keeps P (process_file fs path writer xml).
Proof.
  destruct (process_file_cases fs path writer xml)
    as [[content [E [Hne ->]]] | [[_ ->] | [_ ->]]].
  - now apply print_path_keeps.
  - apply keeps_ret.
  - apply keeps_bind; [apply printe_keeps | intros; apply keeps_ret].
Qed.

Lemma process_entry_keeps entry exts hidden no_gitignore rules pats :
  keeps P (process_entry fs entry exts hidden no_gitignore rules pats
             writer xml).
Proof.
  unfold process_entry.
  repeat match goal with
         | |- keeps _ (if ?b then _ else _) => destruct b
         end; auto using keeps_ret, process_file_keeps.
Qed.

Lemma process_entries_keeps entries exts hidden no_gitignore rules pats :
  keeps P (process_entries fs entries exts hidden no_gitignore rules pats
             writer xml).
Proof.
  induction entries as [|entry rest IH]; simpl; [apply keeps_ret|].
  apply keeps_bind; [apply process_entry_keeps | intros _; exact IH].
Qed.

Lemma process_path_keeps path exts hidden no_gitignore rules pats :
  keeps P (process_path fs path exts hidden no_gitignore rules pats
             writer xml).
Proof.
  unfold process_path, process_directory.
  repeat match goal with
         | |- keeps _ (if ?b then _ else _) => destruct b
         end;
    auto using keeps_ret, process_file_keeps, process_entries_keeps.
Qed.

(** The tags around the documents, written in XML mode only. *)
Hypothesis open_keeps : xml = true -> keeps P (fprintf writer documents_open).
Hypothesis close_keeps : xml = true -> keeps P (fprintf writer documents_close).

Lemma for_paths_keeps (opt : options) (all todo rules : list string) :
  claude_xml opt = xml ->
  keeps P (for_paths fs opt writer all todo rules).
Proof.
  intros Hxml. revert rules.
  induction todo as [|path rest IH]; intros rules; simpl; [apply keeps_ret|].
  destruct (negb (fs_exists fs path)).
  - apply keeps_bind; [apply printe_keeps | intros; apply keeps_ret].
  - apply keeps_bind.
    + rewrite Hxml.
      destruct (xml && (path =? hd EmptyString all)) eqn:E;
        [|apply keeps_ret].
      apply open_keeps. now apply andb_true_iff in E.
    + intros _. apply keeps_bind; [|intros _; apply IH].
      rewrite Hxml. apply process_path_keeps.
Qed.

End Steps.

Section Defined.

Variable fs : filesystem.
Variable sink : FILE.
Let writer : FILE_ptr := Some sink.

Lemma defined_print_path path content xml :
  defined (print_path writer path content xml).
Proof.
  unfold print_path. destruct xml.
  - apply defined_bind; [intros w; unfold get_global_index; eauto|].
    intros index.
    repeat (apply defined_bind; [apply defined_fprintf | intros _]).
    intros w. unfold incr_global_index. eauto.
  - apply defined_fprintf.
Qed.

Lemma defined_process_file path xml :
  defined (process_file fs path writer xml).
Proof.
  destruct (process_file_cases fs path writer xml)
    as [[content [E [Hne ->]]] | [[_ ->] | [_ ->]]].
  - apply defined_print_path.
  - apply defined_ret.
  - apply defined_bind; [apply defined_printe | intros; apply defined_ret].
Qed.

Lemma defined_process_entries entries exts hidden no_gitignore rules pats xml :
  defined (process_entries fs entries exts hidden no_gitignore rules pats
             writer xml).
Proof.
  induction entries as [|entry rest IH]; simpl; [apply defined_ret|].
  apply defined_bind; [|intros _; exact IH].
  unfold process_entry.
  repeat match goal with
         | |- defined (if ?b then _ else _) => destruct b
         end; auto using defined_ret, defined_process_file.
Qed.

Lemma defined_process_path path exts hidden no_gitignore rules pats xml :
  defined (process_path fs path exts hidden no_gitignore rules pats
             writer xml).
Proof.
  unfold process_path, process_directory.
  repeat match goal with
         | |- defined (if ?b then _ else _) => destruct b
         end;
    auto using defined_ret, defined_process_file, defined_process_entries.
Qed.

Lemma defined_for_paths (opt : options) (all todo rules : list string) :
  defined (for_paths fs opt writer all todo rules).
Proof.
  revert rules.
  induction todo as [|path rest IH]; intros rules; simpl; [apply defined_ret|].
  destruct (negb (fs_exists fs path)).
  - apply defined_bind; [apply defined_printe | intros; apply defined_ret].
  - apply defined_bind.
    + destruct (claude_xml opt && (path =? hd EmptyString all));
        [apply defined_fprintf | apply defined_ret].
    + intros _. apply defined_bind; [|intros _; apply IH].
      apply defined_process_path.
Qed.

End Defined.

(** With a sink that opened, [main] ends with an exit status. *)
Lemma main_defined (fs : filesystem) (opt : options) :
  open_writer fs opt <> None -> defined (main fs opt).
Proof.
  intros Hw. unfold main.
  destruct (open_writer fs opt) as [sink|]; [|contradiction].
  apply defined_bind; [apply defined_for_paths|].
  intros [ok rules]. simpl. destruct ok; [|apply defined_ret].
  apply defined_bind; [|intros; apply defined_ret].
  destruct (claude_xml opt); [apply defined_fprintf | apply defined_ret].
Qed.

(** What [main] keeps. *)
Lemma main_keeps (fs : filesystem) (opt : options) (P : world -> Prop) :
  (forall path content,
      fopen_r fs (c_str path) = Some content -> content <> EmptyString ->
      keeps P (print_path (open_writer fs opt) path content (claude_xml opt))) ->
  (forall text, keeps P (printe text)) ->
  (claude_xml opt = true ->
   keeps P (fprintf (open_writer fs opt) documents_open)) ->
  (claude_xml opt = true ->
   keeps P (fprintf (open_writer fs opt) documents_close)) ->
  keeps P (main fs opt).
Proof.
  intros Hprint Herr Hopen Hclose. unfold main.
  apply keeps_bind.
  - now apply for_paths_keeps with (xml := claude_xml opt).
  - intros [ok rules]. simpl. destruct ok; [|apply keeps_ret].
    apply keeps_bind; [|intros; apply keeps_ret].
    destruct (claude_xml opt) eqn:E; [now apply Hclose | apply keeps_ret].
Qed.

(** ** Document indices *)

Section Indices.

Lemma int_wrap_succ (z : Z) : int_wrap (int_wrap z + 1) = int_wrap (z + 1).
Proof.
  unfold int_wrap. f_equal.
  replace ((z + 2 ^ 31) mod 2 ^ 32 - 2 ^ 31 + 1 + 2 ^ 31)%Z
    with ((z + 2 ^ 31) mod 2 ^ 32 + 1)%Z by lia.
  rewrite Z.add_mod_idemp_l by lia. f_equal. lia.
Qed.

Lemma int_wrap_small (z : Z) : (0 <= z <= INT_MAX)%Z -> int_wrap z = z.
Proof.
  unfold int_wrap, INT_MAX. intros H.
  rewrite Z.mod_small by lia. lia.
Qed.

Lemma indices_succ (n : nat) :
  indices (S n) = (indices n ++ [Z.of_nat (S n)])%list.
Proof.
  unfold indices. rewrite seq_S, map_app. reflexivity.
Qed.

Lemma index_invariant_initial : index_invariant initial_world.
Proof. split; reflexivity. Qed.

Lemma index_invariant_printe (text : string) :
  keeps index_invariant (printe text).
Proof. intros w a w' H E. injection E as _ <-. exact H. Qed.

(** A text that opens no document leaves the invariant alone. *)
Lemma index_invariant_fprintf (writer : FILE_ptr) (text : string) :
  is_header text = false -> keeps index_invariant (fprintf writer text).
Proof.
  intros Ht w a w' H E. unfold fprintf in E.
  destruct writer; [|discriminate]. injection E as _ <-.
  unfold index_invariant, headers in *. simpl.
  rewrite filter_app. simpl. rewrite Ht, app_nil_r. exact H.
Qed.

Lemma print_path_xml (sink : FILE) (path content : string) (w : world) :
  print_path (Some sink) path content true w
  = Some (tt, {| out := List.app (out w)
                                 (xml_document (global_index w) path content);
                 err := err w;
                 global_index := int_wrap (global_index w + 1) |}).
Proof.
  unfold print_path, bind, get_global_index, fprintf, incr_global_index.
  cbn [out err global_index]. rewrite <- !app_assoc. reflexivity.
Qed.

#[local] Opaque xml_document.

Lemma headers_of_document (index : Z) (path content : string) :
  filter is_header (xml_document index path content) = [header index].
Proof. reflexivity. Qed.

Lemma index_invariant_print_path (writer : FILE_ptr) (path content : string) :
  keeps index_invariant (print_path writer path content true).
Proof.
  intros w a w' [Hidx Hhead] E.
  destruct writer as [sink|]; [|discriminate].
  rewrite print_path_xml in E. injection E as _ <-.
  unfold index_invariant, headers in *. cbn [out global_index].
  rewrite filter_app, headers_of_document, length_app. cbn [List.length].
  set (n := List.length (filter is_header (out w))) in *.
  replace (n + 1) with (S n) by lia.
  split.
  - rewrite Hidx, int_wrap_succ. f_equal. lia.
  - intros Hn. rewrite indices_succ, map_app, Hhead by lia.
    cbn [map]. rewrite Hidx, int_wrap_small by lia.
    repeat f_equal. lia.
Qed.

End Indices.

(** C5: in XML mode the documents of a run carry the indices 1, 2, 3, ...
    in the order written, across all roots, none used twice or left out
    (the count being in the range of the [int] counter); a file read with
    empty content writes nothing and leaves the counter alone. *)
Theorem C5_indices_run_from_one :
  forall (fs : filesystem) (opt : options),
    claude_xml opt = true ->
    open_writer fs opt <> None ->
    (exists (status : Z) (w : world),
        main fs opt initial_world = Some (status, w) /\
        let n := List.length (headers w) in
        ((Z.of_nat n <= INT_MAX)%Z -> headers w = map header (indices n)))
    /\
    (forall (path : string) (w : world),
        fopen_r fs (c_str path) = Some EmptyString ->
        process_file fs path (open_writer fs opt) true w = Some (tt, w)).
Proof.
  intros fs opt Hxml Hw. split.
  - destruct (main_defined fs opt Hw initial_world) as [status [w E]].
    exists status, w. split; [exact E|].
    assert (H : index_invariant w).
    { eapply (main_keeps fs opt index_invariant);
        [ | | | | apply index_invariant_initial | exact E ].
      - intros path content _ _. rewrite Hxml.
        apply index_invariant_print_path.
      - apply index_invariant_printe.
      - intros _. now apply index_invariant_fprintf.
      - intros _. now apply index_invariant_fprintf. }
    exact (proj2 H).
  - intros path w E. unfold process_file, read_file_content.
    rewrite E. reflexivity.
Qed.

(** C5 on the roots [proj] and [notes.md]: three documents, indexed 1, 2
    and 3 across the two roots; [proj/b.log] is empty and takes no index. *)
Lemma C5_indices_run_from_one_witness :
  (exists (status : Z) (w : world),
      main Demo.project (Demo.with_paths ["proj"; "notes.md"] true)
        initial_world = Some (status, w) /\
      let n := List.length (headers w) in
      ((Z.of_nat n <= INT_MAX)%Z -> headers w = map header (indices n)))
  /\
  (forall (path : string) (w : world),
      fopen_r Demo.project (c_str path) = Some EmptyString ->
      process_file Demo.project path
        (open_writer Demo.project (Demo.with_paths ["proj"; "notes.md"] true))
        true w = Some (tt, w)).
Proof.
  apply (C5_indices_run_from_one Demo.project
           (Demo.with_paths ["proj"; "notes.md"] true)).
  - reflexivity.
  - discriminate.
Defined.

(** ** Roots and the sink *)

(** C4, at an input where the code breaks it: the root [proj] given twice in
    XML mode.  The run ends with status 0 and has written the opening tag
    twice, once before each root, since the loop of [main] asks whether the
    root equals the first root, not whether it is the first. *)
Theorem C4_opening_tag_written_per_equal_root :
  match main Demo.project (Demo.with_paths ["proj"; "proj"] true)
          initial_world with
  | Some (status, w) =>
      status = 0%Z /\
      times_written documents_open w = 2 /\
      times_written documents_close w = 1 /\
      nth_error (out w) 0 = Some documents_open /\
      nth_error (out w) 9 = Some documents_open
  | None => False
  end.
Proof. vm_compute. repeat split. Qed.

(** C6: a root that is a regular file goes to [print_path] with its
    content whenever the content is not empty, whatever the extensions,
    the hidden-file flag, the gitignore flag and rules and the ignore
    patterns are; with a sink that opened its texts are written. *)
Theorem C6_file_root_bypasses_filters :
  forall (fs : filesystem) (path content : string)
         (exts : list string) (hidden no_gitignore : bool)
         (rules pats : list string) (xml : bool),
    fs_is_regular_file fs path = true ->
    fopen_r fs (c_str path) = Some content ->
    content <> EmptyString ->
    (forall writer : FILE_ptr,
        process_path fs path exts hidden no_gitignore rules pats writer xml
        = print_path writer path content xml)
    /\
    (forall (sink : FILE) (w : world),
        exists w' : world,
          process_path fs path exts hidden no_gitignore rules pats
            (Some sink) xml w = Some (tt, w') /\
          out w' = (out w ++ document_texts xml (global_index w) path content)%list).
Proof.
  intros fs path content exts hidden no_gitignore rules pats xml Hreg Hopen Hne.
  assert (Hpath : forall writer,
             process_path fs path exts hidden no_gitignore rules pats writer xml
             = print_path writer path content xml).
  { intros writer. unfold process_path. rewrite Hreg.
    destruct (process_file_cases fs path writer xml)
      as [[c [E [_ ->]]] | [[E _] | [E _]]]; congruence. }
  split; [exact Hpath|].
  intros sink w. rewrite Hpath. destruct xml.
  - rewrite print_path_xml. eexists. split; reflexivity.
  - eexists. split; reflexivity.
Qed.

(** C6 on the hidden file [proj/.hidden] given as a root, with an
    extension list and an ignore pattern that would both reject it in a
    directory. *)
Lemma C6_file_root_bypasses_filters_witness :
  (forall writer : FILE_ptr,
      process_path Demo.project "proj/.hidden" [".txt"] false false ["*"] ["*"]
        writer false
      = print_path writer "proj/.hidden" "x" false)
  /\
  (forall (sink : FILE) (w : world),
      exists w' : world,
        process_path Demo.project "proj/.hidden" [".txt"] false false ["*"] ["*"]
          (Some sink) false w = Some (tt, w') /\
        out w' = (out w ++ document_texts false (global_index w)
                             "proj/.hidden" "x")%list).
Proof.
  apply (C6_file_root_bypasses_filters Demo.project "proj/.hidden" "x").
  - reflexivity.
  - reflexivity.
  - discriminate.
Defined.

(** C7, at an input where the code breaks it: output to a file that cannot
    be opened.  [main] does not look at the result of [fopen]: over an
    empty directory it ends with status 0 and no message on [stderr]; with
    a document to write it writes through the null stream, which has no
    defined behaviour. *)
Theorem C7_unopened_sink_is_not_checked :
  fopen_w Demo.project (c_str (output_file (Demo.to_file ["empty"] false)))
  = false /\
  main Demo.project (Demo.to_file ["empty"] false) initial_world
  = Some (0%Z, initial_world) /\
  main Demo.project (Demo.to_file ["notes.md"] false) initial_world = None /\
  main Demo.project (Demo.to_file ["empty"] true) initial_world = None.
Proof. repeat split; vm_compute; reflexivity. Qed.

(** C10: a root with no separator in it has the empty parent path, so
    its rules are read from [/.gitignore]: the rules [main] adds for it are
    the rules of that file. *)
Theorem C10_rules_of_bare_root_from_filesystem_root :
  forall (fs : filesystem) (path : string),
    has_slash path = false ->
    parent_path path = EmptyString /\
    c_str (gitignore_path (parent_path path)) = "/.gitignore" /\
    read_gitignore fs (parent_path path)
    = match fopen_r fs "/.gitignore" with
      | Some content => read_rules (getlines content)
      | None => []
      end /\
    (forall (opt : options) (writer : FILE_ptr) (all rules : list string)
            (w w' : world) (r : bool * list string),
        fs_exists fs path = true ->
        ignore_gitignore opt = false ->
        for_paths fs opt writer all [path] rules w = Some (r, w') ->
        snd r = (rules ++ match fopen_r fs "/.gitignore" with
                          | Some content => read_rules (getlines content)
                          | None => []
                          end)%list).
Proof.
  intros fs path Hslash.
  assert (Hparent : parent_path path = EmptyString).
  { unfold parent_path. destruct path as [|c path]; [reflexivity|].
    unfold has_slash in *. simpl in Hslash.
    apply orb_false_iff in Hslash as [Hc Hrest].
    cbn [all_slashes directory_part]. unfold has_slash. cbn [mem].
    rewrite Ascii.eqb_sym, Hc, Hrest. reflexivity. }
  rewrite Hparent. repeat split.
  intros opt writer all rules w w' r Hex Hgi E.
  cbn [for_paths] in E. rewrite Hex, Hgi, Hparent in E. cbn [negb] in E.
  unfold bind in E.
  repeat match type of E with
         | match ?m with _ => _ end = _ => destruct m as [[? ?]|]; [|discriminate]
         end.
  injection E as <- _. reflexivity.
Qed.

(** C10 on the default root [.]: the rules come from [/.gitignore]. *)
Lemma C10_rules_of_bare_root_from_filesystem_root_witness :
  parent_path "." = EmptyString /\
  c_str (gitignore_path (parent_path ".")) = "/.gitignore" /\
  read_gitignore Demo.project (parent_path ".")
  = match fopen_r Demo.project "/.gitignore" with
    | Some content => read_rules (getlines content)
    | None => []
    end /\
  (forall (opt : options) (writer : FILE_ptr) (all rules : list string)
          (w w' : world) (r : bool * list string),
      fs_exists Demo.project "." = true ->
      ignore_gitignore opt = false ->
      for_paths Demo.project opt writer all ["."] rules w = Some (r, w') ->
      snd r = (rules ++ match fopen_r Demo.project "/.gitignore" with
                        | Some content => read_rules (getlines content)
                        | None => []
                        end)%list).
Proof.
  apply (C10_rules_of_bare_root_from_filesystem_root Demo.project ".").
  reflexivity.
Defined.

(** ** Plain output and its delimiter *)

Section Plain.

Lemma prefix_append (d a b : string) :
  String.length d <= String.length a -> prefix d (a ++ b) = prefix d a.
Proof.
  revert a. induction d as [|c d IH]; intros a H.
  { destruct a; [destruct b|]; reflexivity. }
  destruct a as [|x a]; simpl in H; [lia|].
  simpl. destruct (ascii_dec c x); [|reflexivity]. apply IH. lia.
Qed.

Lemma concat_cons (text : string) (texts : list string) :
  String.concat EmptyString (text :: texts)
  = text ++ String.concat EmptyString texts.
Proof.
  destruct texts; simpl; [now rewrite append_nil_r | reflexivity].
Qed.

(** Splitting reads [x] whole when the delimiter that follows it is the
    first one from where [x] starts. *)
Lemma split_from_block (x piece rest : string) :
  delimiter_free x = true ->
  split_from delimiter 0 piece (x ++ delimiter ++ rest)
  = (piece ++ x) :: split_from delimiter 0 EmptyString rest.
Proof.
  revert piece. induction x as [|c x IH]; intros piece H.
  - rewrite append_nil_r. destruct rest; reflexivity.
  - cbn [delimiter_free] in H. apply andb_true_iff in H as [Hhere Hrest].
    apply negb_true_iff in Hhere.
    change (String c x ++ delimiter ++ rest)
      with (String c (x ++ delimiter ++ rest)).
    cbn [split_from].
    replace (prefix delimiter (String c (x ++ delimiter ++ rest))) with false.
    + rewrite IH by exact Hrest. rewrite append_assoc. reflexivity.
    + rewrite <- Hhere.
      change (String c (x ++ delimiter ++ rest))
        with (String c x ++ delimiter ++ rest).
      rewrite <- append_assoc. symmetry. apply prefix_append.
      rewrite length_append. simpl. lia.
Qed.

Lemma split_from_blocks (docs : list (string * string)) :
  Forall splittable docs ->
  split_on delimiter
    (String.concat EmptyString
       (map (fun d => plain_block (fst d) (snd d)) docs))
  = pieces docs.
Proof.
  unfold split_on, pieces. induction 1 as [|[path content] docs Hd _ IH].
  - reflexivity.
  - destruct Hd as [Hp [Hc [Fp Fc]]]. simpl in Hp, Hc, Fp, Fc.
    cbn [map fst snd flat_map]. rewrite concat_cons.
    unfold plain_block at 1. rewrite Hp, Hc, !append_assoc.
    rewrite split_from_block by exact Fp.
    rewrite split_from_block by exact Fc.
    rewrite IH. reflexivity.
Qed.

Variable fs : filesystem.

Lemma plain_invariant_print_path (writer : FILE_ptr) (path content : string) :
  fopen_r fs (c_str path) = Some content -> content <> EmptyString ->
  keeps (plain_invariant fs) (print_path writer path content false).
Proof.
  intros Hopen Hne w a w' [docs [Hout Hdocs]] E.
  destruct writer as [sink|]; [|discriminate].
  unfold print_path, fprintf in E. injection E as _ <-.
  exists (docs ++ [(path, content)])%list. cbn [out]. split.
  - rewrite map_app, Hout. reflexivity.
  - apply Forall_app. split; [exact Hdocs|].
    constructor; [|constructor]. split; assumption.
Qed.

Lemma plain_invariant_printe (text : string) :
  keeps (plain_invariant fs) (printe text).
Proof. intros w a w' H E. injection E as _ <-. exact H. Qed.

End Plain.

(** C8 as stated fails: the content of [diff.txt] holds the delimiter, and
    splitting the plain output of the run on [diff.txt] gives its content
    back in two pieces. *)
Lemma C8_content_with_delimiter_splits_in_two :
  fopen_r Demo.project "diff.txt" = Some ("a" ++ delimiter ++ "b") /\
  match main Demo.project (Demo.with_paths ["diff.txt"] false)
          initial_world with
  | Some (_, w) =>
      out w = [plain_block "diff.txt" ("a" ++ delimiter ++ "b")] /\
      split_on delimiter (output w) = ["diff.txt"; "a"; "b"; EmptyString] /\
      split_on delimiter (output w)
      <> pieces [("diff.txt", "a" ++ delimiter ++ "b")]
  | None => False
  end.
Proof.
  split; [reflexivity|]. vm_compute. repeat split. discriminate.
Qed.

(** C8, amended: in plain mode the output of a run is the blocks of its
    documents, each a file with the content read from it, in the order
    written; when no path and no content of them has a NUL character or an
    occurrence of the delimiter that starts in it, splitting the output on
    the delimiter gives back each path followed by the exact content, and
    an empty piece after the last delimiter. *)
Theorem C8_plain_output_splits_back :
  forall (fs : filesystem) (opt : options),
    claude_xml opt = false ->
    open_writer fs opt <> None ->
    exists (status : Z) (w : world) (docs : list (string * string)),
      main fs opt initial_world = Some (status, w) /\
      out w = map (fun d => plain_block (fst d) (snd d)) docs /\
      Forall (read_from fs) docs /\
      (Forall splittable docs ->
       split_on delimiter (output w) = pieces docs).
Proof.
  intros fs opt Hxml Hw.
  destruct (main_defined fs opt Hw initial_world) as [status [w E]].
  assert (H : plain_invariant fs w).
  { eapply (main_keeps fs opt (plain_invariant fs));
      [ | | | | | exact E ].
    - intros path content Hopen Hne. rewrite Hxml.
      now apply plain_invariant_print_path.
    - apply plain_invariant_printe.
    - congruence.
    - congruence.
    - exists []. split; [reflexivity | constructor]. }
  destruct H as [docs [Hout Hdocs]].
  exists status, w, docs. repeat split; try assumption.
  intros Hsplit. unfold output. rewrite Hout.
  now apply split_from_blocks.
Qed.

(** C8 on the roots [proj] and [notes.md] in plain mode. *)
Lemma C8_plain_output_splits_back_witness :
  exists (status : Z) (w : world) (docs : list (string * string)),
    main Demo.project (Demo.with_paths ["proj"; "notes.md"] false)
      initial_world = Some (status, w) /\
    out w = map (fun d => plain_block (fst d) (snd d)) docs /\
    Forall (read_from Demo.project) docs /\
    (Forall splittable docs ->
     split_on delimiter (output w) = pieces docs).
Proof.
  apply (C8_plain_output_splits_back Demo.project
           (Demo.with_paths ["proj"; "notes.md"] false)).
  - reflexivity.
  - discriminate.
Defined.

(** ** Patterns that end with a slash *)

Section GlobSlash.

Lemma tokens_nil (fuel : nat) : tokens fuel EmptyString = [].
Proof. destruct fuel; reflexivity. Qed.

Lemma first_char_is_cons (c : ascii) (s : string) :
  c <> NUL -> first_char_is c s = true -> s = String c (tail s).
Proof.
  intros Hc H. destruct s as [|d s]; simpl in H.
  - apply Ascii.eqb_eq in H. congruence.
  - apply Ascii.eqb_eq in H. now subst d.
Qed.

Lemma class_name_suffix (p name rest : string) :
  class_name p = Some (name, rest) -> exists pre, p = pre ++ rest.
Proof.
  revert name. induction p as [|c p IH]; intros name H; [discriminate|].
  cbn [class_name] in H.
  destruct ((c =? ":")%char && first_char_is "]" p) eqn:E.
  - injection H as _ <-. apply andb_true_iff in E as [_ E].
    apply first_char_is_cons in E; [|discriminate].
    exists (String c (String "]" EmptyString)). now rewrite E at 1.
  - destruct (is_lower c); [|discriminate].
    destruct (class_name p) as [[name' rest']|]; [|discriminate].
    injection H as _ <-. destruct (IH name' eq_refl) as [pre ->].
    now exists (String c pre).
Qed.

Lemma bracket_char_suffix (p rest : string) (c : ascii) :
  bracket_char p = Some (c, rest) -> exists pre, p = pre ++ rest.
Proof.
  destruct p as [|x p]; [discriminate|]. cbn [bracket_char].
  destruct (x =? "\")%char.
  - destruct p as [|d p]; [discriminate|]. intros H. injection H as _ <-.
    now exists (String x (String d EmptyString)).
  - intros H. injection H as _ <-. now exists (String x EmptyString).
Qed.

(** A bracket expression that is terminated ends with a closing bracket,
    after which the pattern goes on. *)
Lemma bracket_items_closes (fuel : nat) :
  forall (first : bool) (p : string) (items : list item) (rest : string),
    bracket_items fuel first p = Some (items, rest) ->
    exists pre, p = pre ++ String "]" rest.
Proof.
  induction fuel as [|fuel IH]; intros first p items rest H; [discriminate|].
  assert (Hmore : forall (i : item) (pre0 r0 : string),
             p = pre0 ++ r0 ->
             match bracket_items fuel false r0 with
             | Some (items', rest') => Some (i :: items', rest')
             | None => None
             end = Some (items, rest) ->
             exists pre, p = pre ++ String "]" rest).
  { intros i pre0 r0 Hp Hm.
    destruct (bracket_items fuel false r0) as [[items' rest']|] eqn:E;
      [|discriminate].
    injection Hm as _ <-. destruct (IH _ _ _ _ E) as [pre1 ->].
    exists (pre0 ++ pre1). now rewrite append_assoc. }
  cbn [bracket_items] in H. destruct p as [|c p]; [discriminate|].
  destruct (c =? "]")%char eqn:Ec.
  { apply Ascii.eqb_eq in Ec. subst c. destruct first.
    - eapply (Hmore _ (String "]" EmptyString) p); [reflexivity | exact H].
    - injection H as _ <-. now exists EmptyString. }
  destruct ((c =? "[")%char && first_char_is ":" p) eqn:Eclass.
  { apply andb_true_iff in Eclass as [_ Ecolon].
    apply first_char_is_cons in Ecolon; [|discriminate].
    destruct (class_name (tail p)) as [[name r0]|] eqn:En.
    - apply class_name_suffix in En as [pre1 En].
      eapply (Hmore _ (String c (String ":" pre1)) r0); [|exact H].
      rewrite Ecolon, En. reflexivity.
    - eapply (Hmore _ (String c EmptyString) p); [reflexivity | exact H]. }
  destruct (bracket_char (String c p)) as [[lo r1]|] eqn:Elo; [|discriminate].
  apply bracket_char_suffix in Elo as [pre1 Elo].
  destruct (first_char_is "-" r1 && negb (first_char_is "]" (tail r1))
            && negb (tail r1 =? EmptyString)) eqn:Erange.
  - apply andb_true_iff in Erange as [Erange _].
    apply andb_true_iff in Erange as [Edash _].
    apply first_char_is_cons in Edash; [|discriminate].
    destruct (bracket_char (tail r1)) as [[hi r2]|] eqn:Ehi; [|discriminate].
    apply bracket_char_suffix in Ehi as [pre2 Ehi].
    eapply (Hmore _ (pre1 ++ String "-" pre2) r2); [|exact H].
    rewrite Elo, Edash, Ehi, append_assoc. reflexivity.
  - eapply (Hmore _ pre1 r1); [exact Elo | exact H].
Qed.

Lemma bracket_closes (p rest : string) (negated : bool) (items : list item) :
  bracket p = Some (negated, items, rest) ->
  exists pre, p = pre ++ String "]" rest.
Proof.
  unfold bracket. intros H.
  destruct (bracket_items _ true _) as [[items' rest']|] eqn:E; [|discriminate].
  injection H as _ _ <-. apply bracket_items_closes in E as [pre E].
  destruct (first_char_is "!" p || first_char_is "^" p).
  - destruct p as [|c p]; [destruct pre; discriminate|].
    exists (String c pre). simpl in E. now rewrite E.
  - now exists pre.
Qed.

(** What follows a closing bracket in a pattern that ends with a slash
    ends with that slash. *)
Lemma slash_after_bracket (a pre rest : string) :
  a ++ "/" = pre ++ String "]" rest ->
  exists x, rest = x ++ "/" /\ String.length x < String.length a.
Proof.
  revert a. induction pre as [|e pre IH]; intros a H.
  - destruct a as [|c a]; [discriminate|]. injection H as _ H.
    exists a. split; [now symmetry | simpl; lia].
  - destruct a as [|c a].
    + injection H as _ H. destruct pre; discriminate.
    + injection H as _ H. destruct (IH a H) as [x [Hx Hlen]].
      exists x. split; [exact Hx | simpl; lia].
Qed.

(** The last token of a pattern that ends with a slash is that slash. *)
Lemma tokens_slash_end (fuel : nat) :
  forall d : string,
    String.length d < fuel ->
    exists ts, tokens fuel (d ++ "/") = (ts ++ [Lit "/"])%list.
Proof.
  induction fuel as [|fuel IH]; intros d Hlen; [lia|].
  assert (Hnext : forall (t : token) (x : string),
             String.length x < String.length d ->
             exists ts, (t :: tokens fuel (x ++ "/") = ts ++ [Lit "/"])%list).
  { intros t x Hx. destruct (IH x ltac:(lia)) as [ts ->]. now exists (t :: ts). }
  destruct d as [|c d].
  - exists []. cbn. now rewrite tokens_nil.
  - simpl in Hlen.
    change (String c d ++ "/") with (String c (d ++ "/")). cbn [tokens].
    destruct (c =? "?")%char; [apply Hnext; simpl; lia|].
    destruct (c =? "*")%char; [apply Hnext; simpl; lia|].
    destruct (c =? "\")%char.
    { destruct d as [|e d].
      - exists []. cbn. now rewrite tokens_nil.
      - change (String e d ++ "/") with (String e (d ++ "/")).
        apply Hnext. simpl. lia. }
    destruct (c =? "[")%char; [|apply Hnext; simpl; lia].
    destruct (bracket (d ++ "/")) as [[[negated items] rest]|] eqn:E;
      [|apply Hnext; simpl; lia].
    apply bracket_closes in E as [pre E].
    apply slash_after_bracket in E as [x [-> Hx]].
    apply Hnext. simpl. lia.
Qed.

(** A string that matches tokens ending with a character ends with that
    character. *)
Lemma matches_last_lit (c : ascii) (ts : list token) :
  forall s : string,
    matches (ts ++ [Lit c]) s = true ->
    exists s', s = s' ++ String c EmptyString.
Proof.
  induction ts as [|t ts IH]; intros s H.
  - destruct s as [|x s]; [discriminate|]. cbn in H.
    apply andb_true_iff in H as [Hx Hs]. apply Ascii.eqb_eq in Hx. subst x.
    destruct s; [|discriminate]. now exists EmptyString.
  - assert (Hstep : forall s, (exists x s0, s = String x s0 /\
                                 matches (ts ++ [Lit c]) s0 = true) ->
                               exists s', s = s' ++ String c EmptyString).
    { intros s0 [x [s1 [-> Hm]]]. destruct (IH s1 Hm) as [s' ->].
      now exists (String x s'). }
    destruct t; cbn [app matches] in H;
      try (destruct s as [|x s]; [discriminate|];
           apply andb_true_iff in H as [_ H]; apply Hstep; eauto).
    induction s as [|x s IHs].
    + apply orb_true_iff in H as [H|H]; [now apply IH | discriminate].
    + apply orb_true_iff in H as [H|H]; [now apply IH|].
      destruct (IHs H) as [s' ->]. now exists (String x s').
Qed.

Lemma filename_no_slash (p : string) : has_slash (filename p) = false.
Proof.
  induction p as [|c p IH]; [reflexivity|]. cbn [filename].
  destruct (has_slash (String c p)) eqn:E; [exact IH | exact E].
Qed.

Lemma mem_c_str (c : ascii) (s : string) :
  mem c (c_str s) = true -> mem c s = true.
Proof.
  induction s as [|x s IH]; [discriminate|]. cbn [c_str mem].
  destruct (x =? NUL)%char; [discriminate|]. cbn [mem].
  intros H. apply orb_true_iff in H as [H|H]; apply orb_true_iff; auto.
Qed.

(** A rule that ends with a slash matches no name without a slash. *)
Lemma fnmatch_slash_rule (d name : string) :
  mem NUL d = false -> has_slash name = false ->
  fnmatch (d ++ "/") name = false.
Proof.
  intros Hnul Hslash. unfold fnmatch.
  rewrite (c_str_no_NUL (d ++ "/")) by (rewrite mem_append, Hnul; reflexivity).
  destruct (tokens_slash_end (String.length (d ++ "/")) d) as [ts ->].
  { rewrite length_append. simpl. lia. }
  destruct (matches (ts ++ [Lit "/"%char]) (c_str name)) eqn:E; [|reflexivity].
  apply matches_last_lit in E as [s' E].
  assert (H : mem SLASH (c_str name) = true).
  { rewrite E, mem_append. apply orb_true_iff. right. reflexivity. }
  apply mem_c_str in H. unfold has_slash in Hslash. congruence.
Qed.

End GlobSlash.

Lemma matches_any_app (rules1 rules2 : list string) (name : string) :
  matches_any (rules1 ++ rules2) name
  = matches_any rules1 name || matches_any rules2 name.
Proof.
  induction rules1 as [|rule rest IH]; simpl; [reflexivity|].
  destruct (fnmatch rule name); [reflexivity | exact IH].
Qed.

(** C9: gitignore rules stop no traversal and exclude no file for the
    directory it is in.  A directory entry is skipped by the loop body
    before any filter is asked, whatever the rules are, and the entries
    below it are enumerated all the same.  For a candidate, an entry that
    is not a directory, the gitignore check is a match of the rules against
    its base filename alone: two candidates with the same base filename
    fare the same wherever they are, and a rule that names a directory,
    such as [build/], excludes no candidate at all. *)
Theorem C9_gitignore_check_sees_basename_only :
  forall (fs : filesystem) (path : string),
    fs_is_directory fs path = false ->
    (forall (dirpath : string) (exts : list string)
            (hidden no_gitignore : bool) (rules pats : list string)
            (writer : FILE_ptr) (xml : bool),
        process_entry fs {| entry_path := dirpath; entry_is_directory := true |}
          exts hidden no_gitignore rules pats writer xml = ret tt)
    /\
    (forall rules : list string,
        should_ignore fs path rules = matches_any rules (filename path))
    /\
    (forall (path' : string) (rules : list string),
        fs_is_directory fs path' = false ->
        filename path' = filename path ->
        should_ignore fs path' rules = should_ignore fs path rules)
    /\
    (forall (d : string) (rules1 rules2 : list string),
        mem NUL d = false ->
        should_ignore fs path (rules1 ++ (d ++ "/") :: rules2)
        = should_ignore fs path (rules1 ++ rules2)).
Proof.
  intros fs path Hfile. repeat split.
  - intros rules. now apply should_ignore_file_entry.
  - intros path' rules Hfile' Hname.
    rewrite !should_ignore_file_entry by assumption. now rewrite Hname.
  - intros d rules1 rules2 Hnul.
    rewrite !should_ignore_file_entry by assumption.
    rewrite !matches_any_app. cbn [matches_any].
    rewrite fnmatch_slash_rule;
      [reflexivity | exact Hnul | apply filename_no_slash].
Qed.

(** C9 on [proj/build/x.o], a file below the directory [build]. *)
Lemma C9_gitignore_check_sees_basename_only_witness :
  (forall (dirpath : string) (exts : list string)
          (hidden no_gitignore : bool) (rules pats : list string)
          (writer : FILE_ptr) (xml : bool),
      process_entry Demo.project
        {| entry_path := dirpath; entry_is_directory := true |}
        exts hidden no_gitignore rules pats writer xml = ret tt)
  /\
  (forall rules : list string,
      should_ignore Demo.project "proj/build/x.o" rules
      = matches_any rules (filename "proj/build/x.o"))
  /\
  (forall (path' : string) (rules : list string),
      fs_is_directory Demo.project path' = false ->
      filename path' = filename "proj/build/x.o" ->
      should_ignore Demo.project path' rules
      = should_ignore Demo.project "proj/build/x.o" rules)
  /\
  (forall (d : string) (rules1 rules2 : list string),
      mem NUL d = false ->
      should_ignore Demo.project "proj/build/x.o"
        (rules1 ++ (d ++ "/") :: rules2)
      = should_ignore Demo.project "proj/build/x.o" (rules1 ++ rules2)).
Proof.
  apply (C9_gitignore_check_sees_basename_only Demo.project "proj/build/x.o").
  reflexivity.
Defined.

(** The rule [build/] of [/.gitignore] keeps [proj/build/x.o] in, and the
    rule [*.o] takes it out by its own name. *)
Example build_rule_excludes_nothing :
  should_ignore Demo.project "proj/build/x.o" ["build/"] = false /\
  should_ignore Demo.project "proj/build/x.o" ["*.o"; "build/"] = true.
Proof. split; reflexivity. Qed.

(** ** The XML envelope when the first root does not come again *)

Section Envelope.

Variable fs : filesystem.

Lemma count_app (text : string) (a b : list string) :
  count text (a ++ b) = count text a + count text b.
Proof. unfold count. now rewrite filter_app, length_app. Qed.

Lemma count_cons (text x : string) (l : list string) :
  count text (x :: l) = (if text =? x then 1 else 0) + count text l.
Proof. unfold count. cbn [filter]. destruct (text =? x); reflexivity. Qed.

Lemma no_tag_since_refl (w : world) : no_tag_since w w.
Proof. exists []. now rewrite app_nil_r. Qed.

Lemma no_tag_since_printe (w0 : world) (text : string) :
  keeps (no_tag_since w0) (printe text).
Proof. intros w a w' H E. injection E as _ <-. exact H. Qed.

Lemma no_tag_since_print_path (w0 : world) (writer : FILE_ptr)
  (path content : string) :
  keeps (no_tag_since w0) (print_path writer path content true).
Proof.
  intros w a w' [texts [Hout [Hopen Hclose]]] E.
  destruct writer as [sink|]; [|discriminate].
  rewrite print_path_xml in E. injection E as _ <-.
  exists (texts ++ xml_document (global_index w) path content)%list.
  cbn [out]. rewrite Hout, app_assoc, !count_app, Hopen, Hclose.
  repeat split.
Qed.

(** A root writes neither tag. *)
Lemma process_path_no_tag (path : string) (exts : list string)
  (hidden no_gitignore : bool) (rules pats : list string)
  (writer : FILE_ptr) (w w' : world) (a : unit) :
  process_path fs path exts hidden no_gitignore rules pats writer true w
  = Some (a, w') ->
  no_tag_since w w'.
Proof.
  intros E.
  eapply (process_path_keeps fs writer true (no_tag_since w));
    [ | | apply no_tag_since_refl | exact E ].
  - intros. apply no_tag_since_print_path.
  - apply no_tag_since_printe.
Qed.

(** The loop of [main] over roots that exist writes the opening tag once
    for each root equal to the first root, and no closing tag. *)
Lemma for_paths_tags (opt : options) (writer : FILE_ptr) (all : list string) :
  claude_xml opt = true ->
  forall (todo rules : list string) (w w' : world) (r : bool * list string),
    forallb (fs_exists fs) todo = true ->
    for_paths fs opt writer all todo rules w = Some (r, w') ->
    fst r = true /\
    exists texts : list string,
      out w' = (out w ++ texts)%list /\
      count documents_open texts = count (hd EmptyString all) todo /\
      count documents_close texts = 0 /\
      (hd_error todo = hd_error all -> todo <> [] ->
       hd_error texts = Some documents_open).
Proof.
  intros Hxml. induction todo as [|path rest IH]; intros rules w w' r Hex E.
  - injection E as <- <-. split; [reflexivity|]. exists [].
    rewrite app_nil_r. repeat split. intros _ H. now contradiction H.
  - cbn [forallb] in Hex. apply andb_true_iff in Hex as [Hpath Hrest].
    cbn [for_paths] in E. rewrite Hpath, Hxml in E. cbn [negb andb] in E.
    unfold bind at 1 in E.
    destruct ((if path =? hd EmptyString all
               then fprintf writer ("<documents>" ++ nl) else ret tt) w)
      as [[[] w1]|] eqn:E1; [|discriminate].
    unfold bind at 1 in E.
    destruct (process_path fs path _ _ _ _ _ writer true w1)
      as [[[] w2]|] eqn:E2; [|discriminate].
    apply process_path_no_tag in E2 as [t2 [Hout2 [Hopen2 Hclose2]]].
    destruct (IH _ _ _ _ Hrest E) as [Hok [t3 [Hout3 [Hopen3 [Hclose3 _]]]]].
    split; [exact Hok|].
    assert (H1 : exists t1,
               out w1 = (out w ++ t1)%list /\
               count documents_open t1
               = (if hd EmptyString all =? path then 1 else 0) /\
               count documents_close t1 = 0 /\
               (path = hd EmptyString all -> t1 = [documents_open])).
    { rewrite (String.eqb_sym (hd EmptyString all) path).
      destruct (path =? hd EmptyString all) eqn:Efirst.
      - destruct writer as [sink|]; [|discriminate].
        injection E1 as <-. exists [documents_open]. repeat split.
      - injection E1 as <-. exists []. rewrite app_nil_r. repeat split.
        intros Heq. apply String.eqb_neq in Efirst. contradiction. }
    destruct H1 as [t1 [Hout1 [Hopen1 [Hclose1 Hfirst]]]].
    exists (t1 ++ t2 ++ t3)%list. repeat split.
    + rewrite Hout3, Hout2, Hout1, <- !app_assoc. reflexivity.
    + rewrite !count_app, Hopen1, Hopen2, Hopen3, count_cons. lia.
    + rewrite !count_app, Hclose1, Hclose2, Hclose3. reflexivity.
    + intros Hhd _. rewrite Hfirst; [reflexivity|].
      destruct all as [|first all']; [discriminate|].
      injection Hhd as ->. reflexivity.
Qed.

(** When every root exists and the first root is given once, a run in XML
    mode writes the opening tag once, first, and the closing tag once,
    last, however many documents come between. *)
Lemma xml_envelope_first_root_once (opt : options) :
  claude_xml opt = true ->
  open_writer fs opt <> None ->
  forallb (fs_exists fs) (roots opt) = true ->
  count (hd EmptyString (roots opt)) (roots opt) = 1 ->
  exists w : world,
    main fs opt initial_world = Some (0%Z, w) /\
    times_written documents_open w = 1 /\
    times_written documents_close w = 1 /\
    hd_error (out w) = Some documents_open /\
    last (out w) EmptyString = documents_close.
Proof.
  intros Hxml Hw Hex Honce.
  destruct (main_defined fs opt Hw initial_world) as [status [w E]].
  pose proof E as E'. unfold main, bind in E'.
  destruct (for_paths fs opt _ _ _ _ initial_world) as [[r w1]|] eqn:E1;
    [|discriminate].
  destruct (for_paths_tags opt _ _ Hxml _ _ _ _ _ Hex E1)
    as [Hok [texts [Hout [Hopen [Hclose Hfirst]]]]].
  rewrite Hok, Hxml in E'.
  destruct (open_writer fs opt) as [sink|]; [|contradiction].
  cbn in E'. injection E' as <- <-.
  eexists. split; [exact E|].
  unfold times_written. cbn [out]. rewrite Hout. cbn [initial_world out app].
  rewrite !count_app, Hopen, Hclose, Honce.
  repeat split.
  - assert (Hne : roots opt <> []) by (unfold roots; destruct (paths opt); discriminate).
    specialize (Hfirst eq_refl Hne).
    destruct texts; [discriminate | exact Hfirst].
  - apply last_last.
Qed.

End Envelope.

(** The envelope of the run on the roots [proj] and [notes.md]. *)
Example xml_envelope_project :
  exists w : world,
    main Demo.project (Demo.with_paths ["proj"; "notes.md"] true) initial_world
    = Some (0%Z, w) /\
    times_written documents_open w = 1 /\
    times_written documents_close w = 1 /\
    hd_error (out w) = Some documents_open /\
    last (out w) EmptyString = documents_close.
Proof. apply xml_envelope_first_root_once; [reflexivity | discriminate | reflexivity | reflexivity]. Qed.

(** The indices of the run on the roots [proj] and [notes.md]: 1 and 2 for
    the files of [proj], 3 for [notes.md]. *)
Example indices_project :
  option_map (fun r => headers (snd r))
    (main Demo.project (Demo.with_paths ["proj"; "notes.md"] true)
       initial_world)
  = Some [header 1; header 2; header 3].
Proof. vm_compute. reflexivity. Qed.

(** * More of the program *)

(** ** The loop over the roots *)

Section Roots.

Variable fs : filesystem.

Lemma for_paths_status (opt : options) (writer : FILE_ptr) (all : list string) :
  forall (todo rules : list string) (w w' : world) (r : bool * list string),
    for_paths fs opt writer all todo rules w = Some (r, w') ->
    fst r = forallb (fs_exists fs) todo.
Proof.
  induction todo as [|path rest IH]; intros rules w w' r E.
  - injection E as <- _. reflexivity.
  - cbn [for_paths forallb] in E |- *.
    destruct (fs_exists fs path); cbn [negb andb] in E |- *.
    + unfold bind at 1 in E.
      destruct ((if claude_xml opt && (path =? hd EmptyString all)
                 then fprintf writer ("<documents>" ++ nl) else ret tt) w)
        as [[[] w1]|]; [|discriminate].
      unfold bind at 1 in E.
      destruct (process_path fs path _ _ _ _ _ writer _ w1) as [[[] w2]|];
        [|discriminate].
      exact (IH _ _ _ _ E).
    + injection E as <- _. reflexivity.
Qed.

(** In XML mode the loop writes no closing tag. *)
Lemma for_paths_no_close (opt : options) (writer : FILE_ptr)
  (all todo rules : list string) (w w' : world) (r : bool * list string) :
  claude_xml opt = true ->
  for_paths fs opt writer all todo rules w = Some (r, w') ->
  exists texts : list string,
    out w' = (out w ++ texts)%list /\ count documents_close texts = 0.
Proof.
  intros Hxml E.
  set (P := fun w1 : world =>
              exists texts : list string,
                out w1 = (out w ++ texts)%list /\
                count documents_close texts = 0).
  assert (Hadd : forall (more : list string) (w1 w2 : world),
             count documents_close more = 0 ->
             out w2 = (out w1 ++ more)%list -> P w1 -> P w2).
  { intros more w1 w2 Hmore Hout [texts [H1 H2]].
    exists (texts ++ more)%list.
    rewrite Hout, H1, app_assoc, count_app, H2, Hmore. split; reflexivity. }
  apply (for_paths_keeps fs writer true P) with (opt := opt) (all := all)
    (todo := todo) (rules := rules) (w := w) (a := r);
    [ | | | exact Hxml | | exact E ].
  - intros path content _ _ w1 a w2 HP E1.
    destruct writer as [sink|]; [|discriminate].
    rewrite print_path_xml in E1. injection E1 as _ <-.
    now apply (Hadd (xml_document (global_index w1) path content) w1).
  - intros text w1 a w2 HP E1. injection E1 as _ <-.
    apply (Hadd [] w1); [reflexivity | cbn; now rewrite app_nil_r | exact HP].
  - intros _ w1 a w2 HP E1. destruct writer as [sink|]; [|discriminate].
    injection E1 as _ <-. now apply (Hadd [documents_open] w1).
  - exists []. now rewrite app_nil_r.
Qed.

End Roots.

(** X1: with a sink that opened, [main] ends with status 0 when every root
    exists and with status 1 when some root does not. *)
Theorem X1_exit_status_tells_missing_root :
  forall (fs : filesystem) (opt : options),
    open_writer fs opt <> None ->
    exists w : world,
      main fs opt initial_world
      = Some ((if forallb (fs_exists fs) (roots opt) then 0 else 1)%Z, w).
Proof.
  intros fs opt Hw.
  destruct (main_defined fs opt Hw initial_world) as [status [w E]].
  exists w. rewrite E. pose proof E as E'. unfold main, bind in E'.
  destruct (for_paths fs opt _ _ _ _ initial_world) as [[r w1]|] eqn:E1;
    [|discriminate].
  apply for_paths_status in E1. cbn [fst] in E', E1. rewrite <- E1.
  destruct (fst r).
  - match type of E' with
    | match ?m with _ => _ end = _ => destruct m as [[[] w2]|]
    end; [|discriminate].
    injection E' as <- _. reflexivity.
  - injection E' as <- _. reflexivity.
Qed.

(** X1 on the roots [proj] and a path that does not exist. *)
Lemma X1_exit_status_tells_missing_root_witness :
  exists w : world,
    main Demo.project (Demo.with_paths ["proj"; "nowhere"] false) initial_world
    = Some ((if forallb (fs_exists Demo.project)
                  (roots (Demo.with_paths ["proj"; "nowhere"] false))
             then 0 else 1)%Z, w).
Proof.
  apply (X1_exit_status_tells_missing_root Demo.project
           (Demo.with_paths ["proj"; "nowhere"] false)).
  discriminate.
Defined.

(** X2: the roots after a root that does not exist play no part: the loop
    of [main] gives the same result and state whatever follows it. *)
Theorem X2_roots_after_missing_root_unused :
  forall (fs : filesystem) (opt : options) (writer : FILE_ptr)
         (all pre post : list string) (missing : string)
         (rules : list string) (w : world),
    fs_exists fs missing = false ->
    for_paths fs opt writer all (pre ++ missing :: post) rules w
    = for_paths fs opt writer all (pre ++ [missing]) rules w.
Proof.
  intros fs opt writer all pre post missing rules w Hmissing.
  revert rules w. induction pre as [|path pre IH]; intros rules w.
  - cbn [app for_paths]. rewrite Hmissing. reflexivity.
  - cbn [app for_paths]. destruct (negb (fs_exists fs path)); [reflexivity|].
    unfold bind at 1 3.
    destruct ((if claude_xml opt && (path =? hd EmptyString all)
               then fprintf writer ("<documents>" ++ nl) else ret tt) w)
      as [[[] w1]|]; [|reflexivity].
    unfold bind at 1 2.
    destruct (process_path fs path _ _ _ _ _ writer _ w1) as [[[] w2]|];
      [|reflexivity].
    apply IH.
Qed.

(** X2 with [notes.md] after the missing root, which is not read. *)
Lemma X2_roots_after_missing_root_unused_witness :
  for_paths Demo.project (Demo.with_paths [] false) (Some Stdout)
    ["proj"; "nowhere"; "notes.md"] (["proj"] ++ "nowhere" :: ["notes.md"])
    [] initial_world
  = for_paths Demo.project (Demo.with_paths [] false) (Some Stdout)
      ["proj"; "nowhere"; "notes.md"] (["proj"] ++ ["nowhere"])
      [] initial_world.
Proof.
  apply (X2_roots_after_missing_root_unused Demo.project).
  reflexivity.
Defined.

(** X3: in XML mode the closing tag is written once when every root exists
    and not at all when a root does not exist: a run that ends with status
    1 leaves the envelope open. *)
Theorem X3_closing_tag_only_on_success :
  forall (fs : filesystem) (opt : options),
    claude_xml opt = true ->
    open_writer fs opt <> None ->
    exists (status : Z) (w : world),
      main fs opt initial_world = Some (status, w) /\
      times_written documents_close w
      = if forallb (fs_exists fs) (roots opt) then 1 else 0.
Proof.
  intros fs opt Hxml Hw.
  destruct (main_defined fs opt Hw initial_world) as [status [w E]].
  exists status, w. split; [exact E|]. unfold main, bind in E.
  destruct (for_paths fs opt _ _ _ _ initial_world) as [[r w1]|] eqn:E1;
    [|discriminate].
  pose proof (for_paths_status fs _ _ _ _ _ _ _ _ E1) as Hstatus.
  destruct (for_paths_no_close fs _ _ _ _ _ _ _ _ Hxml E1)
    as [texts [Hout Hclose]].
  cbn [fst] in E, Hstatus. rewrite <- Hstatus.
  unfold times_written. destruct (fst r).
  - rewrite Hxml in E. destruct (open_writer fs opt) as [sink|];
      [|contradiction].
    cbn in E. injection E as _ <-. cbn [out]. rewrite Hout.
    now rewrite !count_app, Hclose.
  - injection E as _ <-. rewrite Hout. now rewrite count_app, Hclose.
Qed.

(** X3 on a run that stops at a missing root after the documents of
    [proj]. *)
Lemma X3_closing_tag_only_on_success_witness :
  exists (status : Z) (w : world),
    main Demo.project (Demo.with_paths ["proj"; "nowhere"] true) initial_world
    = Some (status, w) /\
    times_written documents_close w
    = if forallb (fs_exists Demo.project)
           (roots (Demo.with_paths ["proj"; "nowhere"] true))
      then 1 else 0.
Proof.
  apply (X3_closing_tag_only_on_success Demo.project
           (Demo.with_paths ["proj"; "nowhere"] true)).
  - reflexivity.
  - discriminate.
Defined.

(** ** Rules over the roots *)

Section RulesOverRoots.

Variable fs : filesystem.

Lemma should_ignore_app (path : string) (rules more : list string) :
  should_ignore fs path (rules ++ more)
  = should_ignore fs path rules || should_ignore fs path more.
Proof. rewrite !should_ignore_existsb. apply existsb_app. Qed.

(** With the rules not honoured the entries are handled alike whatever the
    rules are. *)
Lemma process_entries_without_gitignore (entries : list directory_entry)
  (exts : list string) (hidden : bool) (rules rules' pats : list string)
  (writer : FILE_ptr) (xml : bool) :
  process_entries fs entries exts hidden true rules pats writer xml
  = process_entries fs entries exts hidden true rules' pats writer xml.
Proof.
  induction entries as [|entry rest IH]; [reflexivity|].
  cbn [process_entries]. rewrite IH. reflexivity.
Qed.

(** With no rule at all, honouring the rules changes nothing. *)
Lemma process_entries_no_rule (entries : list directory_entry)
  (exts : list string) (hidden no_gitignore : bool) (rules pats : list string)
  (writer : FILE_ptr) (xml : bool) :
  process_entries fs entries exts hidden no_gitignore [] pats writer xml
  = process_entries fs entries exts hidden true rules pats writer xml.
Proof.
  induction entries as [|entry rest IH]; [reflexivity|].
  cbn [process_entries]. rewrite IH. unfold process_entry.
  cbn [should_ignore]. rewrite andb_false_r. reflexivity.
Qed.

End RulesOverRoots.

(** X4: the rules accumulate over the roots.  When every root exists, the
    rules held at the end of the loop of [main] are the rules held at its
    start followed by the rules of the rule file of each root in turn
    (none is dropped between roots), and they are the rules held at the
    start when gitignore rules are not honoured. *)
Theorem X4_rules_accumulate_over_roots :
  forall (fs : filesystem) (opt : options) (writer : FILE_ptr)
         (all todo rules : list string) (w : world),
    forallb (fs_exists fs) todo = true ->
    match for_paths fs opt writer all todo rules w with
    | Some (r, _) =>
        snd r = if ignore_gitignore opt then rules
                else (rules ++ rules_of_roots fs todo)%list
    | None => True
    end.
Proof.
  intros fs opt writer all todo. induction todo as [|path rest IH];
    intros rules w Hex.
  - cbn. rewrite app_nil_r. destruct (ignore_gitignore opt); reflexivity.
  - cbn [forallb] in Hex. apply andb_true_iff in Hex as [Hpath Hrest].
    cbn [for_paths]. rewrite Hpath. cbn [negb].
    unfold bind at 1.
    match goal with
    | |- match match ?m with _ => _ end with _ => _ end =>
        destruct m as [[[] w1]|]
    end; [|exact I].
    unfold bind at 1.
    match goal with
    | |- match match ?m with _ => _ end with _ => _ end =>
        destruct m as [[[] w2]|]
    end; [|exact I].
    specialize (IH (if negb (ignore_gitignore opt)
                    then (rules ++ read_gitignore fs (parent_path path))%list
                    else rules) w2 Hrest).
    destruct (for_paths fs opt writer all rest _ w2) as [[r w3]|]; [|exact I].
    rewrite IH.
    destruct (ignore_gitignore opt); cbn [negb]; [reflexivity|].
    unfold rules_of_roots. cbn [flat_map]. now rewrite app_assoc.
Qed.

(** X4 on the roots [proj] and [notes.md], whose rules both come from the
    rule file at the root of the file system. *)
Lemma X4_rules_accumulate_over_roots_witness :
  match for_paths Demo.project (Demo.defaults []) (Some Stdout)
          ["proj"; "notes.md"] ["proj"; "notes.md"] [] initial_world with
  | Some (r, _) =>
      snd r = if ignore_gitignore (Demo.defaults []) then []
              else ([] ++ rules_of_roots Demo.project ["proj"; "notes.md"])%list
  | None => True
  end.
Proof.
  apply (X4_rules_accumulate_over_roots Demo.project (Demo.defaults [])
           (Some Stdout) ["proj"; "notes.md"] ["proj"; "notes.md"] []
           initial_world).
  reflexivity.
Defined.

Example rules_of_two_roots :
  rules_of_roots Demo.project ["proj"; "notes.md"]
  = ["*.o"; "build/"; "*.o"; "build/"].
Proof. reflexivity. Qed.

(** X5: a root is handled by a set of rules as by each part of it: a
    candidate is admitted under the rules [rules ++ more] exactly when it
    is admitted under [rules] and under [more].  Rules read for a later
    root can only take candidates out. *)
Theorem X5_more_rules_only_exclude :
  forall (fs : filesystem) (path : string) (exts : list string)
         (hidden no_gitignore : bool) (rules more pats : list string),
    admitted fs path exts hidden no_gitignore (rules ++ more) pats
    = admitted fs path exts hidden no_gitignore rules pats
      && admitted fs path exts hidden no_gitignore more pats.
Proof.
  intros. unfold admitted. rewrite should_ignore_app.
  destruct (should_ignore_file _ _ _ _), no_gitignore,
    (should_ignore fs path rules), (should_ignore fs path more); reflexivity.
Qed.

(** X6: when gitignore rules are not honoured, no rule plays a part: a
    root is processed alike under any two sets of rules. *)
Theorem X6_rules_unused_when_not_honoured :
  forall (fs : filesystem) (path : string) (exts : list string)
         (hidden : bool) (rules rules' pats : list string)
         (writer : FILE_ptr) (xml : bool),
    process_path fs path exts hidden true rules pats writer xml
    = process_path fs path exts hidden true rules' pats writer xml.
Proof.
  intros. unfold process_path, process_directory.
  now rewrite (process_entries_without_gitignore fs _ _ _ rules rules').
Qed.

(** X7: when no root has rules in the rule file beside it (the file
    missing, empty, or all comments and blank lines), a run is the same
    with the rules honoured or not. *)
Theorem X7_no_rule_file_no_difference :
  forall (fs : filesystem) (opt : options) (w : world),
    (forall root, In root (roots opt) ->
                  read_gitignore fs (parent_path root) = []) ->
    main fs opt w = main fs (without_gitignore opt) w.
Proof.
  intros fs opt w Hnone. unfold main.
  change (open_writer fs (without_gitignore opt)) with (open_writer fs opt).
  change (roots (without_gitignore opt)) with (roots opt).
  change (claude_xml (without_gitignore opt)) with (claude_xml opt).
  assert (Hloop : forall (todo : list string) (w0 : world),
             (forall root, In root todo ->
                           read_gitignore fs (parent_path root) = []) ->
             for_paths fs opt (open_writer fs opt) (roots opt) todo [] w0
             = for_paths fs (without_gitignore opt) (open_writer fs opt)
                 (roots opt) todo [] w0).
  { induction todo as [|path rest IH]; intros w0 Hrest; [reflexivity|].
    cbn [for_paths].
    change (claude_xml (without_gitignore opt)) with (claude_xml opt).
    change (extensions (without_gitignore opt)) with (extensions opt).
    change (include_hidden (without_gitignore opt)) with (include_hidden opt).
    change (ignore_patterns (without_gitignore opt))
      with (ignore_patterns opt).
    change (ignore_gitignore (without_gitignore opt)) with true.
    destruct (negb (fs_exists fs path)); [reflexivity|].
    cbn [negb]. rewrite (Hrest path (or_introl eq_refl)).
    assert (Hrules : (if negb (ignore_gitignore opt) then ([] ++ [])%list
                      else []) = ([] : list string))
      by (destruct (ignore_gitignore opt); reflexivity).
    rewrite Hrules.
    assert (Hpath : process_path fs path (extensions opt) (include_hidden opt)
                      (ignore_gitignore opt) [] (ignore_patterns opt)
                      (open_writer fs opt) (claude_xml opt)
                    = process_path fs path (extensions opt)
                        (include_hidden opt) true [] (ignore_patterns opt)
                        (open_writer fs opt) (claude_xml opt)).
    { unfold process_path, process_directory.
      now rewrite (process_entries_no_rule fs _ _ _ (ignore_gitignore opt) []). }
    rewrite Hpath. unfold bind at 1 3.
    match goal with
    | |- match ?m with _ => _ end = _ => destruct m as [[[] w1]|]
    end; [|reflexivity].
    unfold bind at 1 2.
    match goal with
    | |- match ?m with _ => _ end = _ => destruct m as [[[] w2]|]
    end; [|reflexivity].
    apply IH. intros root Hin. apply Hrest. now right. }
  unfold bind. rewrite Hloop by exact Hnone. reflexivity.
Qed.

(** X7 on a file system without a rule file: the directory [d] holds the
    file [a.o]. *)
Lemma X7_no_rule_file_no_difference_witness :
  main (Demo.make_fs [("a.o", "obj")] [("d", [Demo.file "a.o"])])
    (Demo.defaults ["d"]) initial_world
  = main (Demo.make_fs [("a.o", "obj")] [("d", [Demo.file "a.o"])])
      (without_gitignore (Demo.defaults ["d"])) initial_world.
Proof.
  apply (X7_no_rule_file_no_difference
           (Demo.make_fs [("a.o", "obj")] [("d", [Demo.file "a.o"])])
           (Demo.defaults ["d"]) initial_world).
  intros root [<-|[]]. reflexivity.
Defined.

(** ** Extensions, files in sequence, and what is printed *)

(** X8: an empty extension string in the list switches the extension check
    off, every filename ending with it: the candidate is then judged as
    with no extension list. *)
Theorem X8_empty_extension_admits_all :
  forall (name : string) (pats exts : list string) (hidden : bool),
    In EmptyString exts ->
    should_ignore_file name pats exts hidden
    = should_ignore_file name pats [] hidden.
Proof.
  intros name pats exts hidden Hin. unfold should_ignore_file.
  assert (H : has_extension exts name = true).
  { apply has_extension_true. exists EmptyString. split; [exact Hin|].
    exists name. now rewrite append_nil_r. }
  rewrite H. destruct exts; [contradiction | reflexivity].
Qed.

(** X8 on a file without any extension, and the list of [.txt] and the
    empty string. *)
Lemma X8_empty_extension_admits_all_witness :
  should_ignore_file "Makefile" [] [".txt"; EmptyString] false
  = should_ignore_file "Makefile" [] [] false.
Proof.
  apply (X8_empty_extension_admits_all "Makefile" [] [".txt"; EmptyString]).
  right; left; reflexivity.
Defined.

(** A root as its selected files. *)
Lemma process_path_as_selected :
  forall (fs : filesystem) (path : string) (exts : list string)
         (hidden no_gitignore : bool) (rules pats : list string)
         (writer : FILE_ptr) (xml : bool) (w : world),
    process_path fs path exts hidden no_gitignore rules pats writer xml w
    = process_files fs
        (selected fs path exts hidden no_gitignore rules pats) writer xml w.
Proof.
  intros fs path exts hidden no_gitignore rules pats writer xml w.
  unfold process_path, selected, process_directory.
  destruct (fs_is_regular_file fs path).
  - cbn [process_files]. unfold bind.
    destruct (process_file fs path writer xml w) as [[[] w']|]; reflexivity.
  - destruct (fs_is_directory fs path); [|reflexivity].
    revert w.
    induction (recursive_directory_iterator fs path) as [|entry rest IH];
      intros w; [reflexivity|].
    cbn [process_entries filter]. unfold process_entry, admitted.
    destruct (entry_is_directory entry); cbn [negb andb].
    + unfold bind at 1. cbn [ret]. apply IH.
    + destruct (should_ignore_file _ _ _ _); cbn [negb andb].
      * unfold bind at 1. cbn [ret]. apply IH.
      * destruct (negb no_gitignore && should_ignore fs (entry_path entry) rules);
          cbn [negb map process_files].
        -- unfold bind at 1. cbn [ret]. apply IH.
        -- unfold bind.
           destruct (process_file fs (entry_path entry) writer xml w)
             as [[[] w']|]; [apply IH | reflexivity].
Qed.

(** X9: a root is processed as its selected files are, one after the
    other in the order of enumeration: the root itself when it is a
    regular file, the admitted entries that are not directories when it is
    a directory, nothing otherwise. *)
Theorem X9_root_is_its_selected_files_in_order :
  forall (fs : filesystem) (path : string) (exts : list string)
         (hidden no_gitignore : bool) (rules pats : list string)
         (writer : FILE_ptr) (xml : bool) (w : world),
    process_path fs path exts hidden no_gitignore rules pats writer xml w
    = process_files fs
        (selected fs path exts hidden no_gitignore rules pats) writer xml w.
Proof. intros. apply process_path_as_selected. Qed.

(** The files selected in the directory [proj] for the text files. *)
Example selected_project :
  selected Demo.project "proj" [".txt"; ".o"] false true [] [] 
  = ["proj/a.txt"; "proj/build/x.o"].
Proof. reflexivity. Qed.

(** X10: a file that cannot be opened costs a warning on [stderr] and
    nothing else: nothing is written through the sink, which may even be
    null, and the counter stays. *)
Theorem X10_unreadable_file_only_warns :
  forall (fs : filesystem) (path : string) (writer : FILE_ptr) (xml : bool)
         (w : world),
    fopen_r fs (c_str path) = None ->
    process_file fs path writer xml w
    = Some (tt, {| out := out w;
                   err := List.app (err w)
                            ["Warning: Skipping file " ++ c_str path
                               ++ " due to error opening file" ++ nl];
                   global_index := global_index w |}).
Proof.
  intros fs path writer xml w E.
  unfold process_file, read_file_content. rewrite E. reflexivity.
Qed.

(** X10 on a path that [Demo.project] does not hold. *)
Lemma X10_unreadable_file_only_warns_witness :
  process_file Demo.project "proj/gone" None true initial_world
  = Some (tt, {| out := out initial_world;
                 err := List.app (err initial_world)
                          ["Warning: Skipping file " ++ c_str "proj/gone"
                             ++ " due to error opening file" ++ nl];
                 global_index := global_index initial_world |}).
Proof.
  apply (X10_unreadable_file_only_warns Demo.project "proj/gone" None true
           initial_world).
  reflexivity.
Defined.

Lemma c_str_idempotent (s : string) : c_str (c_str s) = c_str s.
Proof. apply c_str_no_NUL, c_str_mem_NUL. Qed.

(** X11: what follows the first NUL character of a path or of a content
    never reaches the output: [print_path] writes the same texts for a
    content as for the content cut at its first NUL. *)
Theorem X11_print_path_stops_at_NUL :
  forall (writer : FILE_ptr) (path content : string) (xml : bool),
    print_path writer path content xml
    = print_path writer (c_str path) (c_str content) xml.
Proof.
  intros writer path content xml. unfold print_path.
  now rewrite !c_str_idempotent.
Qed.

(** A binary file of three bytes is printed as its first byte. *)
Example print_path_binary :
  print_path (Some Stdout) "bin" (String "a" (String NUL "b")) false
    initial_world
  = Some (tt, {| out := [plain_block "bin" "a"]; err := [];
                 global_index := 1 |}).
Proof. reflexivity. Qed.

(** ** Rule files *)

Section RuleFiles.

Lemma mem_cut (c : ascii) (reject line : string) :
  mem c reject = true -> mem c (cut reject line) = false.
Proof.
  intros Hc. induction line as [|d line IH]; [reflexivity|]. cbn [cut].
  destruct ((d =? NUL)%char || mem d reject) eqn:E; [reflexivity|].
  cbn [mem]. rewrite IH, orb_false_r.
  apply orb_false_iff in E as [_ E].
  destruct (c =? d)%char eqn:Ecd; [|reflexivity].
  apply Ascii.eqb_eq in Ecd. subst d. congruence.
Qed.

Lemma getlines_to_crlf (content : string) :
  getlines (to_crlf content) = map to_crlf (getlines content).
Proof.
  induction content as [|c rest IH]; [reflexivity|].
  cbn [to_crlf getlines]. destruct (c =? LF)%char eqn:Ec.
  - apply Ascii.eqb_eq in Ec. subst c.
    change (getlines (String CR (String LF (to_crlf rest))))
      with (match getlines (String LF (to_crlf rest)) with
            | [] => [String CR EmptyString]
            | line :: lines => String CR line :: lines
            end).
    cbn [getlines]. rewrite Ascii.eqb_refl, IH. reflexivity.
  - cbn [getlines]. rewrite Ec, IH.
    destruct (getlines rest) as [|line lines]; cbn [map to_crlf];
      now rewrite Ec.
Qed.

Lemma cut_to_crlf (line : string) :
  cut line_ends (to_crlf line) = cut line_ends line.
Proof.
  induction line as [|c line IH]; [reflexivity|].
  cbn [to_crlf]. destruct (c =? LF)%char eqn:Ec.
  - apply Ascii.eqb_eq in Ec. subst c. reflexivity.
  - cbn [cut]. now rewrite IH.
Qed.

End RuleFiles.

(** X12: a rule file with DOS line ends gives the rules of the same file
    with Unix line ends: the carriage return before a newline is cut off
    with it. *)
Theorem X12_crlf_rule_file_same_rules :
  forall content : string,
    read_rules (getlines (to_crlf content)) = read_rules (getlines content).
Proof.
  intros content. rewrite getlines_to_crlf.
  induction (getlines content) as [|line lines IH]; [reflexivity|].
  cbn [map read_rules]. now rewrite cut_to_crlf, IH.
Qed.

Example crlf_rule_file :
  read_rules (getlines (String "a" (String CR (String LF "# c"))))
  = ["a"].
Proof. reflexivity. Qed.

(** X13: no rule read from a rule file holds a carriage return, a newline
    or a NUL character: a rule is a line cut before the first of them. *)
Theorem X13_rules_hold_no_line_end :
  forall (fs : filesystem) (path : string),
    Forall (fun rule => mem CR rule = false /\ mem LF rule = false
                        /\ mem NUL rule = false)
      (read_gitignore fs path).
Proof.
  intros fs path. apply Forall_forall. intros rule Hin.
  pose proof (read_gitignore_no_NUL fs path rule Hin) as Hnul.
  unfold read_gitignore in Hin.
  destruct (fopen_r fs (c_str (gitignore_path path))); [|contradiction].
  apply read_rules_In in Hin as [line [_ [-> _]]].
  repeat split; try (apply mem_cut; reflexivity). exact Hnul.
Qed.

(** ** The variants with the filter chain inside [process_path] *)

Section InlineVariants.

Variable fs : filesystem.

Lemma print_file_buffer (path : string) (writer : FILE_ptr) (xml : bool) :
  Inline.print_file fs c_str path writer xml
  = Inline.print_file fs (fun content => content) path writer xml.
Proof.
  unfold Inline.print_file.
  destruct (fopen_r fs (c_str path)) as [content|]; [|reflexivity].
  unfold print_path. now rewrite c_str_idempotent.
Qed.

(** On a file that does not read empty the variant does what
    [process_file] does. *)
Lemma print_file_process_file (path : string) (writer : FILE_ptr) (xml : bool)
  (w : world) :
  fopen_r fs (c_str path) <> Some EmptyString ->
  Inline.print_file fs (fun content => content) path writer xml w
  = process_file fs path writer xml w.
Proof.
  intros Hne. unfold Inline.print_file, process_file, read_file_content.
  destruct (fopen_r fs (c_str path)) as [[|c content]|].
  - now contradiction Hne.
  - reflexivity.
  - reflexivity.
Qed.

End InlineVariants.

(** X14: the variant asks the filters in another order (hidden file,
    gitignore rules, ignore patterns, extensions) and lets the same entries
    through: an entry reaches the printing of its file exactly when it is
    not a directory and is admitted by the chain of [main.cpp]. *)
Theorem X14_inline_chain_admits_the_same :
  forall (fs : filesystem) (as_string : string -> string)
         (entry : directory_entry) (exts : list string)
         (hidden no_gitignore : bool) (rules pats : list string)
         (writer : FILE_ptr) (xml : bool),
    Inline.visit fs as_string entry exts hidden no_gitignore rules pats
      writer xml
    = if negb (entry_is_directory entry)
         && admitted fs (entry_path entry) exts hidden no_gitignore rules pats
      then Inline.print_file fs as_string (entry_path entry) writer xml
      else ret tt.
Proof.
  intros. unfold Inline.visit, admitted, should_ignore_file.
  destruct (entry_is_directory entry); [reflexivity|]. cbn [negb andb].
  destruct (negb hidden && first_char_is "." (filename (entry_path entry)));
    [reflexivity|].
  destruct (negb no_gitignore && should_ignore fs (entry_path entry) rules);
    destruct (matches_any pats (filename (entry_path entry)));
    try reflexivity;
    destruct exts as [|e es]; try reflexivity;
    destruct (has_extension (e :: es) (filename (entry_path entry)));
    reflexivity.
Qed.

(** A root of the variant as its selected files. *)
Lemma inline_process_path_as_selected :
  forall (fs : filesystem) (as_string : string -> string) (path : string)
         (exts : list string) (hidden no_gitignore : bool)
         (rules pats : list string) (writer : FILE_ptr) (xml : bool)
         (w : world),
    Inline.process_path fs as_string path exts hidden no_gitignore rules pats
      writer xml w
    = Inline.print_files fs as_string
        (selected fs path exts hidden no_gitignore rules pats) writer xml w.
Proof.
  intros fs as_string path exts hidden no_gitignore rules pats writer xml w.
  unfold Inline.process_path, selected.
  destruct (fs_is_regular_file fs path).
  - cbn [Inline.print_files]. unfold bind.
    destruct (Inline.print_file fs as_string path writer xml w)
      as [[[] w']|]; reflexivity.
  - destruct (fs_is_directory fs path); [|reflexivity].
    revert w.
    induction (recursive_directory_iterator fs path) as [|entry rest IH];
      intros w; [reflexivity|].
    cbn [Inline.visit_all filter].
    assert (Hskip : forall w0,
               bind (ret tt)
                 (fun _ => Inline.visit_all fs as_string rest exts hidden
                             no_gitignore rules pats writer xml) w0
               = Inline.print_files fs as_string
                   (map entry_path
                      (filter (fun entry =>
                                 negb (entry_is_directory entry)
                                 && admitted fs (entry_path entry) exts hidden
                                      no_gitignore rules pats) rest))
                   writer xml w0).
    { intros w0. unfold bind. cbn [ret]. apply IH. }
    unfold Inline.visit, admitted, should_ignore_file.
    destruct (entry_is_directory entry); cbn [negb andb]; [apply Hskip|].
    destruct (negb hidden && first_char_is "." (filename (entry_path entry)));
      cbn [negb andb]; [apply Hskip|].
    destruct (negb no_gitignore && should_ignore fs (entry_path entry) rules);
      destruct (matches_any pats (filename (entry_path entry)));
      cbn [negb andb]; try apply Hskip;
      destruct exts as [|e es]; cbn [negb andb]; try apply Hskip;
      try (destruct (has_extension (e :: es) (filename (entry_path entry)));
           cbn [negb andb]; try apply Hskip);
      cbn [map Inline.print_files]; unfold bind;
      (destruct (Inline.print_file fs as_string (entry_path entry) writer xml w)
         as [[[] w']|]; [apply IH | reflexivity]).
Qed.

(** The variant and [main.cpp] on files in sequence, none reading
    empty. *)
Lemma print_files_process_files (fs : filesystem) (files : list string)
  (writer : FILE_ptr) (xml : bool) :
  (forall file, In file files -> fopen_r fs (c_str file) <> Some EmptyString) ->
  forall w : world,
    Inline.print_files fs (fun content => content) files writer xml w
    = process_files fs files writer xml w.
Proof.
  induction files as [|file rest IH]; intros Hne w; [reflexivity|].
  cbn [Inline.print_files process_files]. unfold bind.
  rewrite print_file_process_file by (apply Hne; now left).
  destruct (process_file fs file writer xml w) as [[[] w']|]; [|reflexivity].
  apply IH. intros f Hf. apply Hne. now right.
Qed.

(** X15: when none of the files a root selects reads empty, the variant
    and [main.cpp] process the root alike: same texts, same warnings, same
    counter. *)
Theorem X15_inline_agrees_without_empty_files :
  forall (fs : filesystem) (path : string) (exts : list string)
         (hidden no_gitignore : bool) (rules pats : list string)
         (writer : FILE_ptr) (xml : bool) (w : world),
    (forall file,
        In file (selected fs path exts hidden no_gitignore rules pats) ->
        fopen_r fs (c_str file) <> Some EmptyString) ->
    Inline.process_path_string fs path exts hidden no_gitignore rules pats
      writer xml w
    = process_path fs path exts hidden no_gitignore rules pats writer xml w.
Proof.
  intros fs path exts hidden no_gitignore rules pats writer xml w Hne.
  unfold Inline.process_path_string.
  rewrite inline_process_path_as_selected, process_path_as_selected.
  now apply print_files_process_files.
Qed.

(** X16: the variant and [main.cpp] part on a file that reads empty.  As a
    root, the variant prints it as a document with no content, which in
    XML mode takes an index; [main.cpp] passes over it. *)
Theorem X16_inline_prints_empty_file :
  forall (fs : filesystem) (path : string) (exts : list string)
         (hidden no_gitignore : bool) (rules pats : list string)
         (writer : FILE_ptr) (xml : bool),
    fs_is_regular_file fs path = true ->
    fopen_r fs (c_str path) = Some EmptyString ->
    Inline.process_path_string fs path exts hidden no_gitignore rules pats
      writer xml
    = print_path writer path EmptyString xml
    /\
    process_path fs path exts hidden no_gitignore rules pats writer xml
    = ret tt.
Proof.
  intros fs path exts hidden no_gitignore rules pats writer xml Hreg Hopen.
  unfold Inline.process_path_string, Inline.process_path, Inline.print_file,
    process_path, process_file, read_file_content.
  rewrite Hreg, Hopen. split; reflexivity.
Qed.

(** X16 on the empty file [proj/b.log]: in XML mode the variant writes the
    four texts of a document and moves the counter. *)
Lemma X16_inline_prints_empty_file_witness :
  Inline.process_path_string Demo.project "proj/b.log" [] false true [] []
    (Some Stdout) true
  = print_path (Some Stdout) "proj/b.log" EmptyString true
  /\
  process_path Demo.project "proj/b.log" [] false true [] [] (Some Stdout) true
  = ret tt.
Proof.
  apply (X16_inline_prints_empty_file Demo.project "proj/b.log").
  - reflexivity.
  - reflexivity.
Defined.

Example inline_empty_file_takes_index :
  Inline.process_path_string Demo.project "proj/b.log" [] false true [] []
    (Some Stdout) true initial_world
  = Some (tt, {| out := xml_document 1 "proj/b.log" EmptyString; err := [];
                 global_index := 2 |}).
Proof. vm_compute. reflexivity. Qed.

(** X17: the variant that reads a file into a [char*] buffer processes
    every root as the variant that reads it into a [std::string]: the
    content cut at its first NUL is printed as the content is. *)
Theorem X17_buffer_variant_prints_the_same :
  forall (fs : filesystem) (path : string) (exts : list string)
         (hidden no_gitignore : bool) (rules pats : list string)
         (writer : FILE_ptr) (xml : bool),
    Inline.process_path_buffer fs path exts hidden no_gitignore rules pats
      writer xml
    = Inline.process_path_string fs path exts hidden no_gitignore rules pats
        writer xml.
Proof.
  intros fs path exts hidden no_gitignore rules pats writer xml.
  unfold Inline.process_path_buffer, Inline.process_path_string,
    Inline.process_path.
  rewrite print_file_buffer.
  destruct (fs_is_regular_file fs path); [reflexivity|].
  destruct (fs_is_directory fs path); [|reflexivity].
  induction (recursive_directory_iterator fs path) as [|entry rest IH];
    [reflexivity|].
  cbn [Inline.visit_all]. rewrite IH. unfold Inline.visit.
  now rewrite print_file_buffer.
Qed.

(** X15 on the directory [proj/build], whose one file has content. *)
Lemma X15_inline_agrees_without_empty_files_witness :
  Inline.process_path_string Demo.project "proj/build" [] false true [] []
    (Some Stdout) true initial_world
  = process_path Demo.project "proj/build" [] false true [] []
      (Some Stdout) true initial_world.
Proof.
  apply (X15_inline_agrees_without_empty_files Demo.project "proj/build").
  intros file [<-|[]]. discriminate.
Defined.

(** ** The variant with its own line reader *)

Section OwnReader.

Lemma split_line_of_getlines (s : string) :
  getlines s
  = match s with
    | EmptyString => []
    | String _ _ => fst (split_line s) :: getlines (snd (split_line s))
    end.
Proof.
  induction s as [|c s IH]; [reflexivity|].
  cbn [getlines split_line]. destruct (c =? LF)%char; [reflexivity|].
  rewrite IH. destruct s as [|d s]; [reflexivity|].
  destruct (split_line (String d s)) as [line rest]. reflexivity.
Qed.

Lemma split_line_length (s : string) :
  String.length s
  = String.length (fst (split_line s)) + String.length (snd (split_line s)).
Proof.
  induction s as [|c s IH]; [reflexivity|]. cbn [split_line].
  destruct (c =? LF)%char; [reflexivity|].
  destruct (split_line s) as [line rest]. cbn in *. now rewrite IH.
Qed.

Lemma split_line_first (c : ascii) (s : string) :
  1 <= String.length (fst (split_line (String c s))).
Proof.
  cbn [split_line]. destruct (c =? LF)%char; [cbn; lia|].
  destruct (split_line s). cbn. lia.
Qed.

Lemma split_line_no_NUL (s : string) :
  mem NUL s = false -> mem NUL (snd (split_line s)) = false.
Proof.
  induction s as [|c s IH]; [reflexivity|]. cbn [mem split_line].
  intros H. apply orb_false_iff in H as [_ H].
  destruct (c =? LF)%char; [exact H|].
  destruct (split_line s) as [line rest]. now apply IH.
Qed.

(** What [fgets] stores of a stream without NUL, as [strchr] sees it:
    through the newline of the first line, or a part of the first line
    without its newline. *)
Lemma fgets_take_spec (limit : nat) :
  forall s : string,
    mem NUL s = false ->
    mem NUL (snd (Reader.fgets_take limit s)) = false /\
    String.length s
    = String.length (fst (Reader.fgets_take limit s))
      + String.length (snd (Reader.fgets_take limit s)) /\
    match Reader.strchr (fst (Reader.fgets_take limit s)) LF with
    | Some pos =>
        substring 0 (pos + 1) (fst (Reader.fgets_take limit s))
        = fst (Reader.fgets_take limit s) /\
        split_line s = Reader.fgets_take limit s
    | None =>
        c_str (fst (Reader.fgets_take limit s))
        = fst (Reader.fgets_take limit s) /\
        split_line s
        = (fst (Reader.fgets_take limit s)
             ++ fst (split_line (snd (Reader.fgets_take limit s))),
           snd (split_line (snd (Reader.fgets_take limit s))))
    end.
Proof.
  induction limit as [|limit IH]; intros s Hnul.
  - cbn. repeat split; try assumption. now destruct (split_line s).
  - destruct s as [|c s]; [cbn; repeat split|].
    cbn [mem] in Hnul. apply orb_false_iff in Hnul as [Hc Hs].
    rewrite Ascii.eqb_sym in Hc.
    cbn [Reader.fgets_take split_line]. destruct (c =? LF)%char eqn:Ec.
    + cbn [fst snd Reader.strchr String.length]. rewrite Ec.
      repeat split. exact Hs.
    + destruct (IH s Hs) as [Hrest [Hlen Hcase]].
      destruct (Reader.fgets_take limit s) as [buffer rest].
      cbn [fst snd] in *. cbn [Reader.strchr String.length]. rewrite Ec, Hc.
      split; [exact Hrest|]. split; [lia|].
      destruct (Reader.strchr buffer LF) as [pos|]; cbn [option_map].
      * destruct Hcase as [Hsub Hsplit]. rewrite Hsplit. split; [|reflexivity].
        cbn. cbn in Hsub. now rewrite Hsub.
      * destruct Hcase as [Hstr Hsplit]. rewrite Hsplit. split; [|reflexivity].
        cbn [c_str]. now rewrite Hc, Hstr.
Qed.

Lemma fgets_take_first (limit : nat) (c : ascii) (s : string) :
  1 <= String.length (fst (Reader.fgets_take (S limit) (String c s))).
Proof.
  cbn [Reader.fgets_take]. destruct (c =? LF)%char; [cbn; lia|].
  destruct (Reader.fgets_take limit s). cbn. lia.
Qed.

(** The loop of [getdelim] on a stream without NUL reads the first line,
    whatever its length. *)
Lemma getdelim_loop_spec (fuel : nat) :
  forall (lineptr : string) (cur_len : Z) (s : string),
    mem NUL s = false ->
    String.length s < fuel ->
    exists n : Z,
      Reader.getdelim_loop fuel LF lineptr cur_len s
      = (lineptr ++ fst (split_line s), n, snd (split_line s)) /\
      (cur_len <= n)%Z /\
      (s <> EmptyString -> (cur_len < n)%Z).
Proof.
  induction fuel as [|fuel IH]; intros lineptr cur_len s Hnul Hfuel; [lia|].
  cbn [Reader.getdelim_loop]. destruct s as [|c s].
  - exists cur_len. cbn. rewrite append_nil_r.
    repeat split; [lia | congruence].
  - unfold Reader.fgets, Reader.BUFFER_SIZE.
    change (120 - 1) with (S 118).
    pose proof (fgets_take_spec (S 118) (String c s) Hnul)
      as [Hrest [Hlen Hcase]].
    pose proof (fgets_take_first 118 c s) as Hfirst.
    destruct (Reader.fgets_take (S 118) (String c s)) as [buffer rest].
    cbn [fst snd] in *.
    destruct (Reader.strchr buffer LF) as [pos|].
    + destruct Hcase as [Hsub Hsplit]. rewrite Hsub, Hsplit.
      exists (cur_len + Z.of_nat pos + 1)%Z. cbn [fst snd].
      repeat split; lia.
    + destruct Hcase as [Hstr Hsplit]. rewrite Hstr, Hsplit. cbn [fst snd].
      destruct (IH (lineptr ++ buffer) (cur_len + Z.of_nat 120 - 1)%Z rest
                  Hrest ltac:(simpl in *; lia)) as [n [E [Hle _]]].
      exists n. rewrite E, append_assoc. repeat split; lia.
Qed.

(** [getline] of the variant on a stream without NUL. *)
Lemma getline_spec (fp : string) :
  mem NUL fp = false ->
  exists n : Z,
    Reader.getline fp = (fst (split_line fp), n, snd (split_line fp)) /\
    match fp with
    | EmptyString => n = (-1)%Z
    | String _ _ => (0 < n)%Z
    end.
Proof.
  intros Hnul. unfold Reader.getline, Reader.getdelim.
  destruct (getdelim_loop_spec (S (String.length fp)) EmptyString 0 fp Hnul
              ltac:(lia)) as [n [E [Hle Hlt]]].
  rewrite E. cbn [append].
  destruct fp as [|c fp].
  - cbn in E. injection E as <-. exists (-1)%Z. split; reflexivity.
  - assert (Hn : (0 < n)%Z) by (apply Hlt; discriminate).
    exists n. apply Z.ltb_lt in Hn as Hb. rewrite Hb. split; [reflexivity | exact Hn].
Qed.

Lemma crlf_text_no_NUL (s : string) : crlf_text s = true -> mem NUL s = false.
Proof.
  induction s as [|c s IH]; [reflexivity|]. cbn [crlf_text mem].
  intros H. apply andb_true_iff in H as [H Hs].
  apply andb_true_iff in H as [Hc _]. apply negb_true_iff in Hc.
  now rewrite Ascii.eqb_sym, Hc, IH.
Qed.

Lemma crlf_text_rest (s : string) :
  crlf_text s = true -> crlf_text (snd (split_line s)) = true.
Proof.
  induction s as [|c s IH]; [reflexivity|]. cbn [crlf_text split_line].
  intros H. apply andb_true_iff in H as [_ Hs].
  destruct (c =? LF)%char; [exact Hs|].
  destruct (split_line s) as [line rest]. now apply IH.
Qed.

(** On a first line whose carriage returns stand before its newline,
    erasing the line ends is cutting at the first of them. *)
Lemma erase_is_cut (s : string) :
  crlf_text s = true ->
  Reader.erase LF (Reader.erase CR (fst (split_line s)))
  = cut line_ends (fst (split_line s)).
Proof.
  induction s as [|c s IH]; [reflexivity|]. cbn [crlf_text split_line].
  intros H. apply andb_true_iff in H as [H Hs].
  apply andb_true_iff in H as [Hnul Hcr]. apply negb_true_iff in Hnul.
  destruct (c =? LF)%char eqn:Elf.
  - apply Ascii.eqb_eq in Elf. subst c. reflexivity.
  - destruct (c =? CR)%char eqn:Ecr.
    + apply Ascii.eqb_eq in Ecr. subst c.
      apply first_char_is_cons in Hcr; [|discriminate]. rewrite Hcr.
      reflexivity.
    + specialize (IH Hs). destruct (split_line s) as [line rest].
      cbn [fst] in *. cbn [Reader.erase cut mem line_ends].
      rewrite Ecr. cbn [Reader.erase]. rewrite Elf, Hnul.
      cbn [orb]. now rewrite IH.
Qed.

(** The loop of [read_gitignore] of the variant gives the rules of
    [main.cpp] on such a text. *)
Lemma read_loop_read_rules (fuel : nat) :
  forall fp : string,
    crlf_text fp = true ->
    String.length fp < fuel ->
    Reader.read_loop fuel fp = read_rules (getlines fp).
Proof.
  induction fuel as [|fuel IH]; intros fp Htext Hfuel; [lia|].
  cbn [Reader.read_loop].
  destruct (getline_spec fp (crlf_text_no_NUL fp Htext)) as [n [E Hn]].
  rewrite E, split_line_of_getlines. destruct fp as [|c fp].
  - subst n. reflexivity.
  - assert (Hb : (n =? -1)%Z = false) by (apply Z.eqb_neq; lia).
    rewrite Hb. cbn [read_rules].
    rewrite (erase_is_cut (String c fp) Htext).
    rewrite IH; [reflexivity | now apply crlf_text_rest |].
    pose proof (split_line_length (String c fp)).
    pose proof (split_line_first c fp). lia.
Qed.

End OwnReader.

(** X18: the [getline] of the variant, built on [fgets] with a buffer of
    120 characters, reads from a stream without NUL the line that
    [getline] of the C library reads, however long the line is, and leaves
    the stream at the next line; at the end of the stream it returns -1. *)
Theorem X18_own_getline_reads_whole_lines :
  forall fp : string,
    mem NUL fp = false ->
    match getlines fp with
    | [] => Reader.getline fp = (EmptyString, (-1)%Z, EmptyString)
    | line :: lines =>
        exists (n : Z) (rest : string),
          Reader.getline fp = (line, n, rest) /\ (0 < n)%Z /\
          getlines rest = lines
    end.
Proof.
  intros fp Hnul. destruct (getline_spec fp Hnul) as [n [E Hn]].
  rewrite split_line_of_getlines. destruct fp as [|c fp].
  - subst n. exact E.
  - exists n, (snd (split_line (String c fp))). repeat split; assumption.
Qed.

(** X18 on a stream that starts with a line of 144 characters, which
    takes two turns of the loop. *)
Lemma X18_own_getline_reads_whole_lines_witness :
  match getlines Reader.long_stream with
  | [] => Reader.getline Reader.long_stream
          = (EmptyString, (-1)%Z, EmptyString)
  | line :: lines =>
      exists (n : Z) (rest : string),
        Reader.getline Reader.long_stream = (line, n, rest) /\
        (0 < n)%Z /\ getlines rest = lines
  end.
Proof.
  apply (X18_own_getline_reads_whole_lines Reader.long_stream).
  vm_compute. reflexivity.
Defined.

(** X19: on a rule file without NUL whose carriage returns all stand
    before a newline (Unix or DOS line ends), and on a missing rule file,
    the variant reads the rules that [main.cpp] reads. *)
Theorem X19_own_reader_reads_the_same_rules :
  forall (fs : filesystem) (path : string),
    match fopen_r fs (c_str (gitignore_path path)) with
    | Some content => crlf_text content = true
    | None => True
    end ->
    Reader.read_gitignore fs path = read_gitignore fs path.
Proof.
  intros fs path Htext. unfold Reader.read_gitignore, read_gitignore.
  destruct (fopen_r fs (c_str (gitignore_path path))) as [content|];
    [|reflexivity].
  apply read_loop_read_rules; [exact Htext | lia].
Qed.

(** X19 on the rule file of [Demo.project]. *)
Lemma X19_own_reader_reads_the_same_rules_witness :
  Reader.read_gitignore Demo.project EmptyString
  = read_gitignore Demo.project EmptyString.
Proof.
  apply (X19_own_reader_reads_the_same_rules Demo.project EmptyString).
  reflexivity.
Defined.

(** The long line is read whole, in two turns, and counted; a last line
    without newline is read whole and counted as a full buffer. *)
Example own_getline_long_line :
  Reader.getline Reader.long_stream
  = (String.concat "0123456789"
       ["a"; "b"; "c"; "d"; "e"; "f"; "g"; "h"; "i"; "j"; "k"; "l"; "m"; "n"]
       ++ nl, 145%Z, "next").
Proof. vm_compute. reflexivity. Qed.
Example own_getline_last_line :
  Reader.getline "next" = ("next", 119%Z, EmptyString).
Proof. vm_compute. reflexivity. Qed.

(** ** The whole of a plain run *)

Section PlainRun.

Variable fs : filesystem.
Variable sink : FILE.

(** Files in sequence write the blocks of their documents. *)
Lemma process_files_plain (files : list string) :
  forall w : world,
    exists w' : world,
      process_files fs files (Some sink) false w = Some (tt, w') /\
      out w' = (out w ++ map (fun d => plain_block (fst d) (snd d))
                           (readable_documents fs files))%list.
Proof.
  induction files as [|file rest IH]; intros w.
  - exists w. split; [reflexivity|]. cbn. now rewrite app_nil_r.
  - cbn [process_files]. unfold bind, readable_documents. cbn [flat_map].
    fold (readable_documents fs rest).
    unfold process_file, read_file_content.
    destruct (fopen_r fs (c_str file)) as [[|c content]|].
    + cbn. apply IH.
    + cbn [bind ret print_path fprintf].
      match goal with
      | |- exists w', process_files _ _ _ _ ?w1 = _ /\ _ =>
          destruct (IH w1) as [w' [E Hout]]
      end.
      exists w'. split; [exact E|]. rewrite Hout. cbn [out].
      rewrite <- app_assoc. reflexivity.
    + cbn.
      match goal with
      | |- exists w', process_files _ _ _ _ ?w1 = _ /\ _ =>
          destruct (IH w1) as [w' [E Hout]]
      end.
      exists w'. split; [exact E|]. rewrite Hout. reflexivity.
Qed.

Lemma for_paths_plain (opt : options) (all : list string) :
  claude_xml opt = false ->
  forall (todo rules : list string) (w : world),
    forallb (fs_exists fs) todo = true ->
    exists (r : bool * list string) (w' : world),
      for_paths fs opt (Some sink) all todo rules w = Some (r, w') /\
      fst r = true /\
      out w' = (out w ++ map (fun d => plain_block (fst d) (snd d))
                           (documents_of_roots fs opt todo rules))%list.
Proof.
  intros Hxml. induction todo as [|path rest IH]; intros rules w Hex.
  - exists (true, rules), w. repeat split. cbn. now rewrite app_nil_r.
  - cbn [forallb] in Hex. apply andb_true_iff in Hex as [Hpath Hrest].
    cbn [for_paths documents_of_roots]. rewrite Hpath, Hxml.
    cbn [negb andb]. unfold bind at 1. cbn [ret]. unfold bind at 1.
    rewrite process_path_as_selected.
    match goal with
    | |- context [process_files fs ?files (Some sink) false w] =>
        destruct (process_files_plain files w) as [w1 [E1 Hout1]]
    end.
    rewrite E1.
    match goal with
    | |- context [for_paths fs opt (Some sink) all rest ?rules1 w1] =>
        destruct (IH rules1 w1 Hrest) as [r [w' [E [Hok Hout]]]]
    end.
    exists r, w'. split; [exact E|]. split; [exact Hok|].
    rewrite Hout, Hout1, map_app, <- app_assoc. reflexivity.
Qed.

End PlainRun.

(** X20: a plain run over roots that all exist, with a sink that opened,
    ends with status 0 and has written exactly the blocks of its
    documents: root after root, under the rules held when the root is
    reached, the selected files that open and do not read empty, in the
    order of enumeration. *)
Theorem X20_plain_run_writes_its_documents :
  forall (fs : filesystem) (opt : options),
    claude_xml opt = false ->
    open_writer fs opt <> None ->
    forallb (fs_exists fs) (roots opt) = true ->
    exists w : world,
      main fs opt initial_world = Some (0%Z, w) /\
      out w = map (fun d => plain_block (fst d) (snd d))
                (documents_of_roots fs opt (roots opt) []).
Proof.
  intros fs opt Hxml Hw Hex. unfold main.
  destruct (open_writer fs opt) as [sink|]; [|contradiction].
  destruct (for_paths_plain fs sink opt (roots opt) Hxml (roots opt) []
              initial_world Hex) as [r [w [E [Hok Hout]]]].
  exists w. unfold bind. rewrite E, Hok, Hxml. split; [reflexivity|].
  exact Hout.
Qed.

(** X20 on the roots [proj] and [notes.md] under the rules of the rule
    file at the root of the file system. *)
Lemma X20_plain_run_writes_its_documents_witness :
  exists w : world,
    main Demo.project (Demo.defaults ["proj"; "notes.md"]) initial_world
    = Some (0%Z, w) /\
    out w = map (fun d => plain_block (fst d) (snd d))
              (documents_of_roots Demo.project
                 (Demo.defaults ["proj"; "notes.md"])
                 (roots (Demo.defaults ["proj"; "notes.md"])) []).
Proof.
  apply (X20_plain_run_writes_its_documents Demo.project
           (Demo.defaults ["proj"; "notes.md"])).
  - reflexivity.
  - discriminate.
  - reflexivity.
Defined.

Example documents_project :
  documents_of_roots Demo.project (Demo.defaults ["proj"; "notes.md"])
    ["proj"; "notes.md"] []
  = [("proj/a.txt", "hi"); ("notes.md", "todo")].
Proof. reflexivity. Qed.

(** X21: the filter chain looks at the base filename of a candidate and at
    nothing else of its path: two entries that are not directories and
    have the same base filename are both admitted or both rejected, so a
    file inside a hidden directory is judged by its own name. *)
Theorem X21_chain_judges_base_filename_only :
  forall (fs : filesystem) (path path' : string) (exts : list string)
         (hidden no_gitignore : bool) (rules pats : list string),
    fs_is_directory fs path = false ->
    fs_is_directory fs path' = false ->
    filename path = filename path' ->
    admitted fs path exts hidden no_gitignore rules pats
    = admitted fs path' exts hidden no_gitignore rules pats.
Proof.
  intros fs path path' exts hidden no_gitignore rules pats Hp Hp' Hname.
  unfold admitted.
  rewrite !should_ignore_file_entry by assumption. now rewrite Hname.
Qed.

(** X21 on [config] inside the hidden directory [.git] and at the top. *)
Lemma X21_chain_judges_base_filename_only_witness :
  admitted Demo.project ".git/config" [] false false ["*.o"] []
  = admitted Demo.project "config" [] false false ["*.o"] [].
Proof.
  apply (X21_chain_judges_base_filename_only Demo.project ".git/config"
           "config"); reflexivity.
Defined.

Example hidden_directory_not_hidden :
  admitted Demo.project ".git/config" [] false false [] [] = true.
Proof. reflexivity. Qed.
